(** * artist-statistics: a shallow embedding of [main.py]

    The program asks MusicBrainz for the recordings of an artist, asks
    lyrics.ovh for the lyrics of every title, counts the words of each text
    and derives average, extrema, variance and standard deviation.

    Conventions of the embedding:
    - Python [int] is [Z]; [str] is [string] (byte strings, so the functions
      on letters below cover the ASCII letters); a [set] of titles is a
      [gset string].
    - Floats are abstracted by exact numbers: a value that Python holds as a
      float is the rational it approximates ([Q]), and a square root is the
      real one ([R]).
    - [sys.exit], uncaught exceptions, [print] and the HTTP calls are effects
      of a small monad [M] over a [world] that records the requests sent and
      the lines printed; the two web services are functions from requests to
      replies.
    - [ThreadPoolExecutor.map] hands back the results in the order of its
      inputs; the requests of one batch are logged in that order. *)

From Stdlib Require Import ZArith QArith Qabs Qround Reals Qreals Lia Lra String Ascii List.
From stdpp Require Import gmap strings list.
Import ListNotations.
Local Open Scope string_scope.
Local Open Scope Z_scope.

(** ** The Python runtime the program relies on *)

Module Py.

(** *** Strings *)

Definition is_lower (c : ascii) : bool :=
  let n := nat_of_ascii c in (97 <=? n)%nat && (n <=? 122)%nat.

Definition is_upper (c : ascii) : bool :=
  let n := nat_of_ascii c in (65 <=? n)%nat && (n <=? 90)%nat.

Definition upper (c : ascii) : ascii :=
  if is_lower c then ascii_of_nat (nat_of_ascii c - 32) else c.

Definition lower (c : ascii) : ascii :=
  if is_upper c then ascii_of_nat (nat_of_ascii c + 32) else c.

(** [str.title()] on a string of ASCII characters: a letter that follows a
    letter is lowercased, any other letter is uppercased, and every other
    character is kept. A byte of 128 or more is kept and taken for uncased,
    which is not what [str.title()] does with the letter such a byte is part
    of; what is proved of title-casing itself is stated for names that are
    [ascii_only]. *)
Fixpoint title_from (previous_is_cased : bool) (s : string) : string :=
  match s with
  | EmptyString => EmptyString
  | String c s' =>
      if is_lower c || is_upper c
      then String (if previous_is_cased then lower c else upper c) (title_from true s')
      else String c (title_from false s')
  end.

Definition title (s : string) : string := title_from false s.

Definition ascii_only (s : string) : Prop :=
  Forall (fun c => (nat_of_ascii c < 128)%nat) (list_ascii_of_string s).

(** [s.replace(old, new)] for one-character [old] and [new]. *)
Fixpoint replace (old new : ascii) (s : string) : string :=
  match s with
  | EmptyString => EmptyString
  | String c s' => String (if Ascii.eqb c old then new else c) (replace old new s')
  end.

(** [s.split(sep)] for a one-character [sep]: every occurrence of [sep] ends
    a piece, empty pieces are kept, and the result is never empty. *)
Fixpoint split (sep : ascii) (s : string) : list string :=
  match s with
  | EmptyString => [EmptyString]
  | String c s' =>
      if Ascii.eqb c sep then EmptyString :: split sep s'
      else match split sep s' with
           | piece :: pieces => String c piece :: pieces
           | [] => [String c EmptyString]
           end
  end.

(** [s.split()]: the maximal runs of characters that are not whitespace.
    It is not called by the program; the documentation of
    [_get_word_count_from_track] promises the number of words, which this
    function counts. *)
Definition is_space (c : ascii) : bool :=
  let n := nat_of_ascii c in ((9 <=? n)%nat && (n <=? 13)%nat) || (n =? 32)%nat.

Fixpoint words_from (in_word : bool) (s : string) : nat :=
  match s with
  | EmptyString => 0%nat
  | String c s' =>
      if is_space c then words_from false s'
      else if in_word then words_from true s'
      else S (words_from true s')
  end.

Definition words (s : string) : nat := words_from false s.

(** [s * n] for a one-character string [s]. *)
Fixpoint repeat_char (c : ascii) (n : nat) : string :=
  match n with
  | O => EmptyString
  | S n' => String c (repeat_char c n')
  end.

(** The number of occurrences of a character. *)
Fixpoint occurrences (c : ascii) (s : string) : nat :=
  match s with
  | EmptyString => 0%nat
  | String d s' => if Ascii.eqb d c then S (occurrences c s') else occurrences c s'
  end.

Definition newline : ascii := "010"%char.
Definition space : ascii := " "%char.

End Py.

(** *** Numbers *)

Module Num.

Definition sum (values : list Z) : Z := fold_left Z.add values 0.

Definition len {A} (l : list A) : Z := Z.of_nat (length l).

(** Rounding to the nearest integer, ties to the even one. *)
Definition round_half_even (q : Q) : Z :=
  let f := Qfloor q in
  match Qcompare (q - inject_Z f) (1 # 2) with
  | Lt => f
  | Gt => f + 1
  | Eq => if Z.even f then f else f + 1
  end.

(** [round(x, 2)]. *)
Definition round2 (q : Q) : Q := (inject_Z (round_half_even (q * 100)) / 100)%Q.

(** [max(values)] and [min(values)] of a non-empty list. *)
Definition maximum (first : Z) (others : list Z) : Z := fold_left Z.max others first.
Definition minimum (first : Z) (others : list Z) : Z := fold_left Z.min others first.

(** The sums that [statistics.variance] accumulates in one pass over the
    data, as exact fractions: the sum of the values and of their squares. *)
Definition sum_of_squares (values : list Z) : Z :=
  fold_left (fun acc x => acc + x * x) values 0.

(** [statistics._ss]: the sum of the squared deviations from the mean,
    computed as [sxx - sx * sx / n]. *)
Definition ss (values : list Z) : Q :=
  (inject_Z (sum_of_squares values)
   - inject_Z (sum values) * inject_Z (sum values) / inject_Z (len values))%Q.

(** The textbook sample variance, with Bessel's correction: the squared
    deviations from the arithmetic mean, summed and divided by [n - 1]. *)
Definition mean (values : list Z) : Q := (inject_Z (sum values) / inject_Z (len values))%Q.

Definition squared_deviations (values : list Z) : Q :=
  fold_right (fun x acc => ((inject_Z x - mean values) * (inject_Z x - mean values) + acc)%Q)
             0%Q values.

Definition sample_variance (values : list Z) : Q :=
  (squared_deviations values / inject_Z (len values - 1))%Q.

End Num.

(** ** Effects: exits, exceptions, output and the network *)

Inductive exn : Type :=
| KeyError (key : string)
| TypeError
| ValueError
| ZeroDivisionError
| StatisticsError
| RequestException.

Inductive outcome (A : Type) : Type :=
| Ok (a : A)
| Exit (code : Z)
| Raise (e : exn).
Arguments Ok {A} a.
Arguments Exit {A} code.
Arguments Raise {A} e.

(** A printed line is the sequence of the pieces of its f-string; the
    rendering of a number as text is not modelled. *)
Inductive piece : Type :=
| Str (s : string)
| Int (z : Z)
| Rat (q : Q)
| Real (r : R).

Definition line : Type := list piece.

Inductive param : Type :=
| PInt (z : Z)
| PStr (s : string).

Record request : Type := {
  r_url : string;
  r_headers : list (string * string);
  r_params : list (string * param);
  r_timeout : option Z
}.

(** What a server does with a request: it answers with a status and a JSON
    body, or no answer arrives (the connection fails or the timeout of the
    request expires) and [requests.get] raises. *)
Inductive reply (B : Type) : Type :=
| Reply (status_code : Z) (body : B)
| NoReply.
Arguments Reply {B} status_code body.
Arguments NoReply {B}.

(** A recording of MusicBrainz is a JSON object; only its string fields
    matter here. An object without fields is falsy. *)
Definition recording : Type := list (string * string).

Fixpoint field (key : string) (r : recording) : option string :=
  match r with
  | [] => None
  | (k, v) :: r' => if String.eqb k key then Some v else field key r'
  end.

(** The JSON body of a recording search. Either field may be missing. *)
Record recordings_json : Type := {
  js_count : option Z;
  js_recordings : option (list recording)
}.

(** The JSON body of a lyrics lookup. *)
Record lyrics_json : Type := {
  js_lyrics : option string
}.

Record backend : Type := {
  musicbrainz : request -> reply recordings_json;
  lyrics_ovh : request -> reply lyrics_json
}.

Record world : Type := {
  sent : list request;
  stdout : list line
}.

Definition start : world := {| sent := []; stdout := [] |}.

Definition M (A : Type) : Type := world -> world * outcome A.

Definition ret {A} (a : A) : M A := fun w => (w, Ok a).

Definition bind {A B} (m : M A) (k : A -> M B) : M B :=
  fun w =>
    match m w with
    | (w', Ok a) => k a w'
    | (w', Exit code) => (w', Exit code)
    | (w', Raise e) => (w', Raise e)
    end.

Notation "'let*' x := m 'in' k" := (bind m (fun x => k))
  (at level 10, x name, m at level 100, k at level 200).
Notation "m ;; k" := (bind m (fun _ => k))
  (at level 100, k at level 200, right associativity).

Definition lift {A} (o : outcome A) : M A := fun w => (w, o).

Definition print (l : line) : M unit :=
  fun w => ({| sent := sent w; stdout := stdout w ++ [l] |}, Ok tt).

Definition sys_exit {A} (code : Z) : M A := fun w => (w, Exit code).

(** [requests.get]: the request goes out; the answer comes back or the call
    raises. *)
Definition requests_get {B} (server : request -> reply B) (r : request) : M (Z * B) :=
  fun w =>
    let w' := {| sent := sent w ++ [r]; stdout := stdout w |} in
    match server r with
    | Reply status_code body => (w', Ok (status_code, body))
    | NoReply => (w', Raise RequestException)
    end.

(** [executor.map(f, xs)] followed by the end of the [with] block: every
    call runs, and each result or exception is kept for the consumer. The
    calls of a batch share nothing, so running them one after the other in
    the order of [xs] gives the results of any schedule. In
    [_get_artist_recordings] the results are consumed inside the [with]
    block, where an exception lets the executor cancel the calls that have
    not started; the properties about the requests of that batch are stated
    for batches in which every request is answered. *)
Fixpoint executor_map {A B} (f : A -> M B) (xs : list A) : M (list (outcome B)) :=
  match xs with
  | [] => ret []
  | x :: xs' =>
      fun w =>
        match f x w with
        | (w1, o) =>
            match executor_map f xs' w1 with
            | (w2, Ok os) => (w2, Ok (o :: os))
            | (w2, Exit code) => (w2, Exit code)
            | (w2, Raise e) => (w2, Raise e)
            end
        end
  end.

(** [list(results)]: the results in order, up to the first exception, which
    is raised again. *)
Fixpoint results {B} (os : list (outcome B)) : outcome (list B) :=
  match os with
  | [] => Ok []
  | Ok b :: os' =>
      match results os' with
      | Ok bs => Ok (b :: bs)
      | Exit code => Exit code
      | Raise e => Raise e
      end
  | Exit code :: _ => Exit code
  | Raise e :: _ => Raise e
  end.

(** The status of the process: 0 when [main] returns, the argument of
    [sys.exit], and 1 when an exception is not caught. *)
Definition exit_status {A} (o : outcome A) : Z :=
  match o with
  | Ok _ => 0
  | Exit code => code
  | Raise _ => 1
  end.

(** ** The program *)

(** The parsed command line. *)
Record arguments : Type := {
  args_artist : string;
  args_compare : option string;
  args_limit : Z;
  args_all : bool
}.

(** Lines 41 to 48: the two module-level settings. *)
Definition get_all_tracks (args : arguments) : bool := args_all args.

Definition limit (args : arguments) : param :=
  if args_all args then PStr "all"
  else PInt (nth (Nat.b2n (args_limit args <=? 100)) [100%Z; args_limit args] 0%Z).

Definition nl : string := String Py.newline EmptyString.

(** [filter(None, values)] on optional integers: [None] and [0] are falsy. *)
Fixpoint filter_none_int (values : list (option Z)) : list Z :=
  match values with
  | [] => []
  | Some n :: values' => if n =? 0 then filter_none_int values' else n :: filter_none_int values'
  | None :: values' => filter_none_int values'
  end.

(** [filter(None, pages)] on optional lists: [None] and [[]] are falsy. *)
Fixpoint filter_none_list {A} (pages : list (option (list A))) : list (list A) :=
  match pages with
  | [] => []
  | Some (x :: page) :: pages' => (x :: page) :: filter_none_list pages'
  | Some [] :: pages' => filter_none_list pages'
  | None :: pages' => filter_none_list pages'
  end.

(** [filter(None, recordings)] on JSON objects: the empty object is falsy. *)
Definition filter_none_dict (recordings : list recording) : list recording :=
  List.filter (fun r => match r with [] => false | _ => true end) recordings.

(** [[track['title'] for track in recordings]]: the first recording
    without a title raises [KeyError]. *)
Fixpoint titles (recordings : list recording) : outcome (list string) :=
  match recordings with
  | [] => Ok []
  | r :: recordings' =>
      match field "title" r with
      | None => Raise (KeyError "title")
      | Some t =>
          match titles recordings' with
          | Ok ts => Ok (t :: ts)
          | Exit code => Exit code
          | Raise e => Raise e
          end
      end
  end.

(** [range(count)] scaled by 100, lines 141 to 143. *)
Definition offsets_upto (count : Z) : list Z :=
  map (fun i => 100 * Z.of_nat i) (seq 0 (Z.to_nat count)).

(** [statistics.variance] of the standard library: fewer than two values
    raise [StatisticsError]; otherwise the sum of squared deviations is
    divided by [n - 1]. *)
Definition statistics_variance (values : list Z) : outcome Q :=
  if Num.len values <? 2 then Raise StatisticsError
  else Ok (Num.ss values / inject_Z (Num.len values - 1))%Q.

(** [statistics.stdev]: the square root of [statistics.variance]. *)
Definition statistics_stdev (values : list Z) : outcome R :=
  match statistics_variance values with
  | Ok v => Ok (sqrt (Q2R v))
  | Exit code => Exit code
  | Raise e => Raise e
  end.

(** [round(sum(values) / len(values), 2)], line 60. *)
Definition rounded_average (values : list Z) : outcome Q :=
  match values with
  | [] => Raise ZeroDivisionError
  | _ => Ok (Num.round2 (inject_Z (Num.sum values) / inject_Z (Num.len values)))
  end.

(** [max(values)] and [min(values)], lines 61 and 62. *)
Definition builtin_max (values : list Z) : outcome Z :=
  match values with
  | [] => Raise ValueError
  | v :: values' => Ok (Num.maximum v values')
  end.

Definition builtin_min (values : list Z) : outcome Z :=
  match values with
  | [] => Raise ValueError
  | v :: values' => Ok (Num.minimum v values')
  end.

Module Artist.

(** An instance of the class once [__init__] has returned. *)
Record t : Type := {
  artist_name : string;
  tracks : gset string;
  values : list Z;
  average : Q;
  max : Z;
  min : Z;
  variance : Q;
  standard_deviation : R
}.

Section Methods.

Variable args : arguments.
Variable net : backend.

Definition lyrics_request (url : string) : request :=
  {| r_url := url;
     r_headers := [("Content-Type", "application/json"); ("connection", "keep-alive")];
     r_params := [];
     r_timeout := Some 5 |}.

Definition _get_word_count_from_track (url : string) : M (option Z) :=
  let* response := requests_get (lyrics_ovh net) (lyrics_request url) in
  if fst response =? 200 then
    match js_lyrics (snd response) with
    | Some lyrics =>
        ret (Some (Num.len (Py.split Py.space (Py.replace Py.newline Py.space lyrics))))
    | None => lift (Raise (KeyError "lyrics"))
    end
  else ret None.

Definition lyrics_url (artist_name track_title : string) : string :=
  "https://api.lyrics.ovh/v1/" ++ artist_name ++ "/" ++ track_title.

Definition _get_length_of_tracks (artist_name : string) (tracks : gset string) : M (list Z) :=
  let urls := map (lyrics_url artist_name) (elements tracks) in
  let* values := executor_map _get_word_count_from_track urls in
  let* values := lift (results values) in
  let values := filter_none_int values in
  match values with
  | [] =>
      print [Str "No lyrics found for the artist "; Str artist_name;
             Str ", did you spell the artist name correctly?"] ;;
      sys_exit 1
  | _ => ret values
  end.

Definition page_request (artist_name : string) (offsets : Z) : request :=
  {| r_url := "https://musicbrainz.org/ws/2/recording";
     r_headers := [("Application", "name:anonymous"); ("Accept", "application/json")];
     r_params := [("query", PStr ("artist:" ++ artist_name)); ("limit", PInt 100);
                  ("offset", PInt offsets)];
     r_timeout := Some 5 |}.

Definition _get_recording_data (artist_name : string) (offsets : Z)
  : M (option (list recording)) :=
  let* response := requests_get (musicbrainz net) (page_request artist_name offsets) in
  ret (js_recordings (snd response)).

Definition initial_request (artist_name : string) : request :=
  {| r_url := "https://musicbrainz.org/ws/2/" ++ "recording";
     r_headers := [("Application", "name:anonymous"); ("Accept", "application/json")];
     r_params := [("query", PStr ("artist:" ++ artist_name)); ("limit", limit args)];
     r_timeout := None |}.

Definition _get_artist_recordings (artist_name : string) : M (gset string) :=
  let* response := requests_get (musicbrainz net) (initial_request artist_name) in
  let data := snd response in
  match js_count data with
  | Some 0 =>
      print [Str "Could not find any tracks for "; Str artist_name;
             Str ", did you spell the artist name correctly?"] ;;
      sys_exit 1
  | _ => ret tt
  end ;;
  let* track_names :=
    if get_all_tracks args then
      match js_count data with
      | None => lift (Raise TypeError)
      | Some n =>
          let count := Z.quot n 100 in
          print [Str "Found "; Int n; Str " tracks"] ;;
          print [Str "Analysing, please wait this can take awhile..."] ;;
          let offsets := offsets_upto count in
          let* recordings := executor_map (_get_recording_data artist_name) offsets in
          let* recordings := lift (results recordings) in
          let recordings := filter_none_list recordings in
          lift (titles (concat recordings))
      end
    else
      match js_recordings data with
      | None => lift (Raise (KeyError "recordings"))
      | Some recordings => lift (titles (filter_none_dict recordings))
      end in
  ret (list_to_set track_names).

(** Lines 60 to 64 of [__init__]: the statistics, in the order in which
    the attributes are assigned. *)
Definition statistics_of (artist_name : string) (tracks : gset string) (values : list Z)
  : outcome t :=
  match rounded_average values with
  | Ok average =>
      match builtin_max values with
      | Ok max =>
          match builtin_min values with
          | Ok min =>
              match statistics_variance values with
              | Ok variance =>
                  match statistics_stdev values with
                  | Ok standard_deviation =>
                      Ok {| artist_name := artist_name; tracks := tracks; values := values;
                            average := average; max := max; min := min;
                            variance := variance;
                            standard_deviation := standard_deviation |}
                  | Exit code => Exit code
                  | Raise e => Raise e
                  end
              | Exit code => Exit code
              | Raise e => Raise e
              end
          | Exit code => Exit code
          | Raise e => Raise e
          end
      | Exit code => Exit code
      | Raise e => Raise e
      end
  | Exit code => Exit code
  | Raise e => Raise e
  end.

Definition __init__ (artist_name : string) : M t :=
  let artist_name := Py.title artist_name in
  let* tracks := _get_artist_recordings artist_name in
  let* values := _get_length_of_tracks artist_name tracks in
  lift (statistics_of artist_name tracks values).

End Methods.

Definition print_details (self : t) : M unit :=
  print [Str "Artist name: "; Str (artist_name self); Str (" " ++ nl);
         Str "Average length of songs: "; Rat (average self); Str (" " ++ nl);
         Str "Max words in single song: "; Int (max self); Str (" " ++ nl);
         Str "Min words in single song: "; Int (min self); Str (" " ++ nl);
         Str "The variance is: "; Rat (variance self); Str (" " ++ nl);
         Str "The standard deviation is: "; Real (standard_deviation self); Str (" " ++ nl)].

Definition difference_report (self artist_object : t) : line :=
  [Str "Comparing artists: "; Str (artist_name self); Str " and ";
   Str (artist_name artist_object); Str (" " ++ nl);
   Str "The difference in the average is: ";
   Rat (Qabs (average artist_object - average self)); Str (" " ++ nl);
   Str "The difference in the max length is: ";
   Int (Z.abs (max artist_object - max self)); Str (" " ++ nl);
   Str "The difference in the min length is: ";
   Int (Z.abs (min artist_object - min self)); Str (" " ++ nl);
   Str "The difference in the variance is: ";
   Rat (Qabs (variance artist_object - variance self)); Str (" " ++ nl);
   Str "The difference in the standard deviation is: ";
   Real (Rabs (standard_deviation artist_object - standard_deviation self));
   Str (" " ++ nl)].

Definition print_difference (self artist_object : t) : M unit :=
  print (difference_report self artist_object).

End Artist.

Definition print_banner (title : string) : M unit :=
  print [Str (Py.repeat_char "-" (String.length title))] ;;
  print [Str title] ;;
  print [Str (Py.repeat_char "-" (String.length title))].

Definition limit_piece (p : param) : piece :=
  match p with
  | PInt z => Int z
  | PStr s => Str s
  end.

Definition main (args : arguments) (net : backend) : M unit :=
  print_banner "AireLogic Tech Test by Luckman Ali" ;;
  print [Str "Collecting "; limit_piece (limit args); Str " tracks, please wait..."] ;;
  let* artist := Artist.__init__ args net (args_artist args) in
  match args_compare args with
  | Some (String c other) =>
      let* artist_object := Artist.__init__ args net (String c other) in
      Artist.print_difference artist artist_object
  | _ => Artist.print_details artist
  end.

(** ** The effects of a run, as functions *)

(** The world after more requests have gone out, and after more lines have
    been printed. *)
Definition sending (rs : list request) (w : world) : world :=
  {| sent := sent w ++ rs; stdout := stdout w |}.

Definition printing (ls : list line) (w : world) : world :=
  {| sent := sent w; stdout := stdout w ++ ls |}.

(** What one lyrics lookup hands back, read off the reply of the service. *)
Definition word_count_outcome (net : backend) (url : string) : outcome (option Z) :=
  match lyrics_ovh net (Artist.lyrics_request url) with
  | NoReply => Raise RequestException
  | Reply status_code body =>
      if status_code =? 200 then
        match js_lyrics body with
        | Some lyrics =>
            Ok (Some (Num.len (Py.split Py.space (Py.replace Py.newline Py.space lyrics))))
        | None => Raise (KeyError "lyrics")
        end
      else Ok None
  end.

(** What one paginated request hands back. *)
Definition page_outcome (net : backend) (artist_name : string) (offset : Z)
  : outcome (option (list recording)) :=
  match musicbrainz net (Artist.page_request artist_name offset) with
  | NoReply => Raise RequestException
  | Reply _ body => Ok (js_recordings body)
  end.

Definition not_found_message (artist_name : string) : line :=
  [Str "Could not find any tracks for "; Str artist_name;
   Str ", did you spell the artist name correctly?"].

Definition no_lyrics_message (artist_name : string) : line :=
  [Str "No lyrics found for the artist "; Str artist_name;
   Str ", did you spell the artist name correctly?"].

Definition found_lines (n : Z) : list line :=
  [[Str "Found "; Int n; Str " tracks"];
   [Str "Analysing, please wait this can take awhile..."]].

(** The value of a query parameter of a request. *)
Fixpoint lookup_param (key : string) (ps : list (string * param)) : option param :=
  match ps with
  | [] => None
  | (k, v) :: ps' => if String.eqb k key then Some v else lookup_param key ps'
  end.

(** The numbers of a printed line, in order. *)
Definition numbers (l : line) : list piece :=
  List.filter (fun p => match p with Str _ => false | _ => true end) l.

Definition nonnegative (p : piece) : Prop :=
  match p with
  | Str _ => True
  | Int z => 0 <= z
  | Rat q => (0 <= q)%Q
  | Real r => (0 <= r)%R
  end.

(** The page that a paginated request brings, if any. *)
Definition page_of (net : backend) (artist_name : string) (offset : Z)
  : option (list recording) :=
  match musicbrainz net (Artist.page_request artist_name offset) with
  | NoReply => None
  | Reply _ body => js_recordings body
  end.


(** The expression of line 77, on the text of the [lyrics] field. *)
Definition counted (lyrics : string) : Z :=
  Num.len (Py.split Py.space (Py.replace Py.newline Py.space lyrics)).

(** The world once [main] has printed its banner and its first line,
    lines 209 and 210. *)
Definition announced (args : arguments) (w : world) : world :=
  printing
    [[Str (Py.repeat_char "-" (String.length "AireLogic Tech Test by Luckman Ali"))];
     [Str "AireLogic Tech Test by Luckman Ali"];
     [Str (Py.repeat_char "-" (String.length "AireLogic Tech Test by Luckman Ali"))];
     [Str "Collecting "; limit_piece (limit args); Str " tracks, please wait..."]]
    w.

(** What [args.compare] is taken for by [if args.compare:]. *)
Definition compared (args : arguments) : option string :=
  match args_compare args with
  | Some (String c other) => Some (String c other)
  | _ => None
  end.

(** ** What the spec calls path escaping *)

(** The spec asks for a lookup request whose artist and title are
    "path-escaped". The program has no such function; this definition
    follows the spec's words, as percent-encoding of every character that is
    not unreserved in a URL path segment. *)
Module Escape.

Definition unreserved (c : ascii) : bool :=
  let n := nat_of_ascii c in
  ((48 <=? n)%nat && (n <=? 57)%nat)
  || Py.is_upper c || Py.is_lower c
  || (n =? 45)%nat || (n =? 46)%nat || (n =? 95)%nat || (n =? 126)%nat.

Definition hex_digit (n : nat) : ascii :=
  if (n <? 10)%nat then ascii_of_nat (48 + n) else ascii_of_nat (55 + n).

Definition percent_encode (c : ascii) : string :=
  let n := nat_of_ascii c in
  String "%" (String (hex_digit (n / 16)) (String (hex_digit (n mod 16)) EmptyString)).

Fixpoint path_escape (s : string) : string :=
  match s with
  | EmptyString => EmptyString
  | String c s' =>
      (if unreserved c then String c EmptyString else percent_encode c) ++ path_escape s'
  end.

Definition escaped_lyrics_url (artist_name track_title : string) : string :=
  "https://api.lyrics.ovh/v1/" ++ path_escape artist_name ++ "/" ++ path_escape track_title.

End Escape.

(** ** Mocked services, for the concrete runs below *)

Module Mock.

(** A listing service that reports [total] matches, answers the initial
    query with [first_page] and a query at offset [100 * i] with the [i]-th
    of [pages]. *)
Definition listing (total : Z) (first_page : list recording)
    (pages : list (option (list recording))) (r : request) : reply recordings_json :=
  match lookup_param "offset" (r_params r) with
  | Some (PInt offset) =>
      Reply 200 {| js_count := Some total;
                   js_recordings := nth (Z.to_nat (offset / 100)) pages None |}
  | _ => Reply 200 {| js_count := Some total; js_recordings := Some first_page |}
  end.

(** A lyrics service that knows the texts of some URLs and answers 404 for
    every other one. *)
Fixpoint lyrics (known : list (string * string)) (r : request) : reply lyrics_json :=
  match known with
  | [] => Reply 404 {| js_lyrics := None |}
  | (u, text) :: known' =>
      if String.eqb u (r_url r) then Reply 200 {| js_lyrics := Some text |}
      else lyrics known' r
  end.

(** A lyrics service that answers every request with the same text. *)
Definition same_lyrics (text : string) (r : request) : reply lyrics_json :=
  Reply 200 {| js_lyrics := Some text |}.

(** A lyrics service that never answers in time. *)
Definition silent (r : request) : reply lyrics_json := NoReply.

Definition track (t : string) : recording := [("title", t)].

Definition fixed (artist : string) (n : Z) : arguments :=
  {| args_artist := artist; args_compare := None; args_limit := n; args_all := false |}.

Definition everything (artist : string) : arguments :=
  {| args_artist := artist; args_compare := None; args_limit := 25; args_all := true |}.

(** One recording is found for Queen; the lyrics service is a parameter. *)
Definition queen (lyrics_service : request -> reply lyrics_json) : backend :=
  {| musicbrainz := listing 1 [track "Bohemian Rhapsody"] [];
     lyrics_ovh := lyrics_service |}.

(** 250 matches for Queen: the page at offset 0 holds two recordings with
    the same title and a third one, the page at offset 100 does not come
    back; the page of the initial query holds a title found nowhere else. *)
Definition queen_pages : backend :=
  {| musicbrainz :=
       listing 250 [track "Intro"]
         [Some [track "Bohemian Rhapsody"; track "Bohemian Rhapsody"; track "Bicycle Race"];
          None];
     lyrics_ovh := lyrics [] |}.


(** The service of [queen_pages], except that the request for the page at
    offset 100 gets no answer. *)
Definition queen_timeout : backend :=
  {| musicbrainz :=
       fun r =>
         match lookup_param "offset" (r_params r) with
         | Some (PInt 100) => NoReply
         | _ => musicbrainz queen_pages r
         end;
     lyrics_ovh := lyrics [] |}.

(** Two recordings are found for Queen, and both have lyrics. *)
Definition queen_two : backend :=
  {| musicbrainz := listing 2 [track "Bohemian Rhapsody"; track "Bicycle Race"] [];
     lyrics_ovh :=
       lyrics [("https://api.lyrics.ovh/v1/Queen/Bohemian Rhapsody", "one two three four");
               ("https://api.lyrics.ovh/v1/Queen/Bicycle Race", "one two")] |}.

(** A listing whose answer to the initial query is given as it is. *)
Definition answering (data : recordings_json) : backend :=
  {| musicbrainz := fun _ => Reply 200 data; lyrics_ovh := lyrics [] |}.

End Mock.

(** * Properties *)

(** ** Strings *)

Example title_the_beatles : Py.title "the beatles" = "The Beatles".
Proof. reflexivity. Qed.

Example title_acdc : Py.title "AC/DC" = "Ac/Dc".
Proof. reflexivity. Qed.

Example split_two_spaces : Py.split Py.space "a  b" = ["a"; ""; "b"].
Proof. reflexivity. Qed.

Example split_empty : Py.split Py.space "" = [""].
Proof. reflexivity. Qed.

Example escape_slash : Escape.path_escape "Up/Down" = "Up%2FDown".
Proof. reflexivity. Qed.

Lemma split_length sep s : length (Py.split sep s) = S (Py.occurrences sep s).
Proof.
  induction s as [|c s IH]; simpl; [reflexivity|].
  destruct (Ascii.eqb c sep); simpl.
  - now rewrite IH.
  - destruct (Py.split sep s); simpl in *; lia.
Qed.

Lemma occurrences_replace_newline s :
  Py.occurrences Py.space (Py.replace Py.newline Py.space s)
  = (Py.occurrences Py.space s + Py.occurrences Py.newline s)%nat.
Proof.
  induction s as [|c s IH]; simpl; [reflexivity|].
  destruct (Ascii.eqb c Py.newline) eqn:Hn.
  - apply Ascii.eqb_eq in Hn. subst c. simpl. rewrite IH. lia.
  - destruct (Ascii.eqb c Py.space) eqn:Hs; simpl; rewrite IH; lia.
Qed.

(** The number the program takes for the word count of a text. *)
Lemma word_count_formula text :
  Num.len (Py.split Py.space (Py.replace Py.newline Py.space text))
  = 1 + Z.of_nat (Py.occurrences Py.space text) + Z.of_nat (Py.occurrences Py.newline text).
Proof.
  unfold Num.len. rewrite split_length, occurrences_replace_newline. lia.
Qed.

Lemma word_count_positive text :
  1 <= Num.len (Py.split Py.space (Py.replace Py.newline Py.space text)).
Proof. rewrite word_count_formula. lia. Qed.

(** ** Sums and extrema *)

Lemma fold_add_shift (l : list Z) (a : Z) : fold_left Z.add l a = a + fold_left Z.add l 0.
Proof.
  revert a. induction l as [|x l IH]; intros a; simpl; [lia|].
  rewrite (IH (a + x)), (IH (0 + x)). lia.
Qed.

Lemma sum_cons (x : Z) (l : list Z) : Num.sum (x :: l) = x + Num.sum l.
Proof. unfold Num.sum. simpl. apply fold_add_shift. Qed.

Lemma fold_squares_shift (l : list Z) (a : Z) :
  fold_left (fun acc x => acc + x * x) l a = a + fold_left (fun acc x => acc + x * x) l 0.
Proof.
  revert a. induction l as [|x l IH]; intros a; simpl; [lia|].
  rewrite (IH (a + x * x)), (IH (0 + x * x)). lia.
Qed.

Lemma sum_of_squares_cons (x : Z) (l : list Z) :
  Num.sum_of_squares (x :: l) = x * x + Num.sum_of_squares l.
Proof. unfold Num.sum_of_squares. simpl. apply fold_squares_shift. Qed.

Lemma len_cons {A} (x : A) (l : list A) : Num.len (x :: l) = 1 + Num.len l.
Proof. unfold Num.len. simpl length. lia. Qed.

Lemma len_nonneg {A} (l : list A) : 0 <= Num.len l.
Proof. unfold Num.len. lia. Qed.

Lemma maximum_spec (l : list Z) (a : Z) :
  a <= Num.maximum a l /\ Forall (fun y => y <= Num.maximum a l) l.
Proof.
  unfold Num.maximum. revert a. induction l as [|x l IH]; intros a; simpl.
  - split; [lia | constructor].
  - destruct (IH (Z.max a x)) as [H1 H2]. split; [lia|].
    constructor; [lia | exact H2].
Qed.

Lemma minimum_spec (l : list Z) (a : Z) :
  Num.minimum a l <= a /\ Forall (fun y => Num.minimum a l <= y) l.
Proof.
  unfold Num.minimum. revert a. induction l as [|x l IH]; intros a; simpl.
  - split; [lia | constructor].
  - destruct (IH (Z.min a x)) as [H1 H2]. split; [lia|].
    constructor; [lia | exact H2].
Qed.

Lemma sum_upper (l : list Z) (m : Z) :
  Forall (fun y => y <= m) l -> Num.sum l <= Num.len l * m.
Proof.
  induction 1 as [|x l Hx _ IH].
  - unfold Num.sum, Num.len. simpl. lia.
  - rewrite sum_cons, len_cons. lia.
Qed.

Lemma sum_lower (l : list Z) (m : Z) :
  Forall (fun y => m <= y) l -> Num.len l * m <= Num.sum l.
Proof.
  induction 1 as [|x l Hx _ IH].
  - unfold Num.sum, Num.len. simpl. lia.
  - rewrite sum_cons, len_cons. lia.
Qed.

(** ** Rounding *)

Lemma round_half_even_floor (q : Q) :
  Qfloor q <= Num.round_half_even q <= Qfloor q + 1.
Proof.
  unfold Num.round_half_even.
  destruct (Qcompare _ _); [destruct (Z.even _)| |]; lia.
Qed.

Lemma round_half_even_integer (k : Z) : Num.round_half_even (inject_Z k) = k.
Proof.
  unfold Num.round_half_even. rewrite Qfloor_Z.
  assert (H : (inject_Z k - inject_Z k ?= 1 # 2)%Q = Lt).
  { rewrite <- Qlt_alt. setoid_replace (inject_Z k - inject_Z k)%Q with 0%Q using relation Qeq by ring.
    reflexivity. }
  now rewrite H.
Qed.

Lemma round_half_even_above (q : Q) (k : Z) :
  (inject_Z k <= q)%Q -> k <= Num.round_half_even q.
Proof.
  intros H. pose proof (round_half_even_floor q) as [Hf _].
  apply Qfloor_resp_le in H. rewrite Qfloor_Z in H. lia.
Qed.

Lemma round_half_even_comp (q q' : Q) :
  (q == q')%Q -> Num.round_half_even q = Num.round_half_even q'.
Proof.
  intros Heq. unfold Num.round_half_even. rewrite (Qfloor_comp _ _ Heq).
  assert (Hc : (q - inject_Z (Qfloor q') ?= 1 # 2)%Q = (q' - inject_Z (Qfloor q') ?= 1 # 2)%Q).
  { apply Qcompare_comp; [|reflexivity]. rewrite Heq. reflexivity. }
  now rewrite Hc.
Qed.

Lemma round2_comp (q q' : Q) : (q == q')%Q -> Num.round2 q = Num.round2 q'.
Proof.
  intros Heq. unfold Num.round2. rewrite (round_half_even_comp (q * 100) (q' * 100)).
  - reflexivity.
  - now rewrite Heq.
Qed.

Lemma round_half_even_below (q : Q) (k : Z) :
  (q <= inject_Z k)%Q -> Num.round_half_even q <= k.
Proof.
  intros H. destruct (Qlt_le_dec q (inject_Z k)) as [Hlt | Hge].
  - pose proof (round_half_even_floor q) as [_ Hf].
    assert (Qfloor q < k); [|lia].
    rewrite Zlt_Qlt. eapply Qle_lt_trans; [apply Qfloor_le | exact Hlt].
  - assert (Heq : (q == inject_Z k)%Q) by (apply Qle_antisym; assumption).
    rewrite (round_half_even_comp _ _ Heq), round_half_even_integer. lia.
Qed.

Lemma inject_Z_hundred (k : Z) : (inject_Z k * 100 == inject_Z (k * 100))%Q.
Proof. rewrite inject_Z_mult. reflexivity. Qed.

Lemma round2_above (q : Q) (k : Z) : (inject_Z k <= q)%Q -> (inject_Z k <= Num.round2 q)%Q.
Proof.
  intros H. unfold Num.round2.
  assert (Hk : k * 100 <= Num.round_half_even (q * 100)).
  { apply round_half_even_above. rewrite <- inject_Z_hundred.
    apply Qmult_le_compat_r; [exact H | discriminate]. }
  apply Qle_shift_div_l; [reflexivity|].
  rewrite inject_Z_hundred. now rewrite <- Zle_Qle.
Qed.

Lemma round2_below (q : Q) (k : Z) : (q <= inject_Z k)%Q -> (Num.round2 q <= inject_Z k)%Q.
Proof.
  intros H. unfold Num.round2.
  assert (Hk : Num.round_half_even (q * 100) <= k * 100).
  { apply round_half_even_below. rewrite <- inject_Z_hundred.
    apply Qmult_le_compat_r; [exact H | discriminate]. }
  apply Qle_shift_div_r; [reflexivity|].
  rewrite inject_Z_hundred. now rewrite <- Zle_Qle.
Qed.

Lemma round2_integer (k : Z) : (Num.round2 (inject_Z k) == inject_Z k)%Q.
Proof.
  apply Qle_antisym; [apply round2_below | apply round2_above]; apply Qle_refl.
Qed.

(** ** The sample variance *)

Lemma deviations_expand (m : Q) (l : list Z) :
  (fold_right (fun x acc => (inject_Z x - m) * (inject_Z x - m) + acc) 0 l
   == inject_Z (Num.sum_of_squares l) - (2 # 1) * m * inject_Z (Num.sum l)
      + inject_Z (Num.len l) * m * m)%Q.
Proof.
  induction l as [|x l IH].
  - unfold Num.sum_of_squares, Num.sum, Num.len. simpl. ring.
  - simpl fold_right. rewrite IH, sum_of_squares_cons, sum_cons, len_cons.
    rewrite !inject_Z_plus, inject_Z_mult. change (inject_Z 1) with 1%Q. ring.
Qed.

Lemma square_nonneg (q : Q) : (0 <= q * q)%Q.
Proof.
  destruct q as [n d]. unfold Qle, Qmult. simpl. nia.
Qed.

Lemma deviations_nonneg (m : Q) (l : list Z) :
  (0 <= fold_right (fun x acc => (inject_Z x - m) * (inject_Z x - m) + acc) 0 l)%Q.
Proof.
  induction l as [|x l IH]; simpl.
  - apply Qle_refl.
  - assert (H : (0 <= (inject_Z x - m) * (inject_Z x - m))%Q) by apply square_nonneg.
    apply (Qle_trans _ (0 + 0)%Q); [apply Qle_refl|].
    now apply Qplus_le_compat.
Qed.

(** The one-pass formula of [statistics._ss] is the sum of the squared
    deviations from the mean. *)
Lemma ss_squared_deviations (l : list Z) :
  l <> [] -> (Num.ss l == Num.squared_deviations l)%Q.
Proof.
  intros Hl. unfold Num.squared_deviations. rewrite deviations_expand.
  unfold Num.ss, Num.mean.
  assert (Hn : ~ (inject_Z (Num.len l) == 0)%Q).
  { destruct l as [|x l]; [congruence|]. rewrite len_cons.
    pose proof (len_nonneg l) as H0. intros H.
    change 0%Q with (inject_Z 0) in H. rewrite inject_Z_injective in H. lia. }
  field. exact Hn.
Qed.

Lemma statistics_variance_sample (l : list Z) :
  (2 <= length l)%nat ->
  exists v, statistics_variance l = Ok v /\ (v == Num.sample_variance l)%Q /\ (0 <= v)%Q.
Proof.
  intros Hlen. unfold statistics_variance.
  assert (Hn : 2 <= Num.len l) by (unfold Num.len; lia).
  destruct (Z.ltb_spec (Num.len l) 2) as [?|_]; [lia|].
  assert (Hl : l <> []) by (destruct l; simpl in Hlen; [lia | congruence]).
  eexists. split; [reflexivity|].
  assert (Heq : (Num.ss l / inject_Z (Num.len l - 1) == Num.sample_variance l)%Q).
  { unfold Num.sample_variance. now rewrite (ss_squared_deviations l Hl). }
  split; [exact Heq|]. rewrite Heq. unfold Num.sample_variance.
  apply Qle_shift_div_l.
  - change 0%Q with (inject_Z 0). rewrite <- Zlt_Qlt. lia.
  - rewrite Qmult_0_l. apply deviations_nonneg.
Qed.

Lemma statistics_variance_short (l : list Z) :
  (length l < 2)%nat -> statistics_variance l = Raise StatisticsError.
Proof.
  intros Hlen. unfold statistics_variance.
  destruct (Z.ltb_spec (Num.len l) 2) as [_|H]; [reflexivity|].
  unfold Num.len in H. lia.
Qed.

Lemma rounded_average_bounds (x : Z) (l : list Z) :
  exists avg, rounded_average (x :: l) = Ok avg
    /\ avg = Num.round2 (inject_Z (Num.sum (x :: l)) / inject_Z (Num.len (x :: l)))
    /\ (inject_Z (Num.minimum x l) <= avg <= inject_Z (Num.maximum x l))%Q.
Proof.
  eexists. split; [reflexivity|]. split; [reflexivity|].
  assert (Hpos : (0 < inject_Z (Num.len (x :: l)))%Q).
  { change 0%Q with (inject_Z 0). rewrite <- Zlt_Qlt. rewrite len_cons.
    pose proof (len_nonneg l). lia. }
  destruct (minimum_spec l x) as [Hm1 Hm2]. destruct (maximum_spec l x) as [HM1 HM2].
  split.
  - apply round2_above. apply Qle_shift_div_l; [exact Hpos|].
    rewrite <- inject_Z_mult, <- Zle_Qle.
    rewrite Z.mul_comm. apply sum_lower. now constructor.
  - apply round2_below. apply Qle_shift_div_r; [exact Hpos|].
    rewrite <- inject_Z_mult, <- Zle_Qle.
    rewrite Z.mul_comm. apply sum_upper. now constructor.
Qed.

(** ** Running the monad *)

Lemma sending_nil (w : world) : sending [] w = w.
Proof. destruct w. unfold sending. simpl. now rewrite app_nil_r. Qed.

Lemma sending_app (rs rs' : list request) (w : world) :
  sending rs' (sending rs w) = sending (rs ++ rs') w.
Proof. unfold sending. simpl. now rewrite app_assoc. Qed.

Lemma sent_sending (rs : list request) (w : world) :
  sent (sending rs w) = (sent w ++ rs)%list.
Proof. reflexivity. Qed.

(** A batch of calls that each send one request and hand back a value that
    depends on the answer only: all the requests go out, in order, and
    every result is kept. *)
Lemma executor_map_run {A B} (f : A -> M B) (r : A -> request) (g : A -> outcome B) :
  (forall x w, f x w = (sending [r x] w, g x)) ->
  forall xs w, executor_map f xs w = (sending (map r xs) w, Ok (map g xs)).
Proof.
  intros Hf. induction xs as [|x xs IH]; intros w; simpl.
  - unfold ret. now rewrite sending_nil.
  - rewrite Hf, IH, sending_app. reflexivity.
Qed.

Lemma word_count_run (net : backend) (url : string) (w : world) :
  Artist._get_word_count_from_track net url w
  = (sending [Artist.lyrics_request url] w, word_count_outcome net url).
Proof.
  unfold Artist._get_word_count_from_track, word_count_outcome, bind, requests_get.
  destruct (lyrics_ovh net (Artist.lyrics_request url)) as [st body|]; [|reflexivity].
  simpl. destruct (st =? 200); [|reflexivity].
  destruct (js_lyrics body); reflexivity.
Qed.

Lemma page_run (net : backend) (name : string) (offset : Z) (w : world) :
  Artist._get_recording_data net name offset w
  = (sending [Artist.page_request name offset] w, page_outcome net name offset).
Proof.
  unfold Artist._get_recording_data, page_outcome, bind, requests_get.
  destruct (musicbrainz net (Artist.page_request name offset)); reflexivity.
Qed.

Lemma results_all_ok {B} (l : list B) : results (map Ok l) = Ok l.
Proof. induction l as [|b l IH]; simpl; [reflexivity | now rewrite IH]. Qed.

Lemma results_ok_inv {B} (os : list (outcome B)) (bs : list B) :
  results os = Ok bs -> os = map Ok bs.
Proof.
  revert bs. induction os as [|o os IH]; intros bs H; simpl in H.
  - inversion H. reflexivity.
  - destruct o as [b| |]; try discriminate.
    destruct (results os) as [bs'| |] eqn:E; try discriminate.
    inversion H. subst. simpl. now rewrite (IH bs' eq_refl).
Qed.

(** One raised exception in a batch whose calls never exit makes the
    consumer of the batch raise. *)
Lemma results_raise {B} (os : list (outcome B)) (e : exn) :
  In (Raise e) os -> (forall code, ~ In (Exit code) os) -> exists e', results os = Raise e'.
Proof.
  induction os as [|o os IH]; intros Hin Hex; [destruct Hin|].
  destruct o as [b|code|e0]; simpl.
  - destruct Hin as [Hin|Hin]; [discriminate|].
    destruct IH as [e' He']; [exact Hin | |].
    + intros code H. apply (Hex code). now right.
    + exists e'. now rewrite He'.
  - exfalso. apply (Hex code). now left.
  - now exists e0.
Qed.

Lemma word_count_never_exits (net : backend) (url : string) (code : Z) :
  word_count_outcome net url <> Exit code.
Proof.
  unfold word_count_outcome.
  destruct (lyrics_ovh net _) as [st body|]; [|discriminate].
  destruct (st =? 200); [|discriminate].
  destruct (js_lyrics body); discriminate.
Qed.

(** A word count that is present is at least 1: [filter(None, ...)] never
    drops it. *)
Lemma word_count_present (net : backend) (url : string) (n : Z) :
  word_count_outcome net url = Ok (Some n) -> 1 <= n.
Proof.
  unfold word_count_outcome.
  destruct (lyrics_ovh net _) as [st body|]; [|discriminate].
  destruct (st =? 200); [|discriminate].
  destruct (js_lyrics body); [|discriminate].
  intros H. inversion H. apply word_count_positive.
Qed.

(** ** The two fetching methods, run *)

Lemma length_of_tracks_run (net : backend) (name : string) (tracks : gset string) (w : world) :
  Artist._get_length_of_tracks net name tracks w
  = let urls := map (Artist.lyrics_url name) (elements tracks) in
    let w1 := sending (map Artist.lyrics_request urls) w in
    match results (map (word_count_outcome net) urls) with
    | Ok counts =>
        match filter_none_int counts with
        | [] => (printing [no_lyrics_message name] w1, Exit 1)
        | v :: vs => (w1, Ok (v :: vs))
        end
    | Exit code => (w1, Exit code)
    | Raise e => (w1, Raise e)
    end.
Proof.
  unfold Artist._get_length_of_tracks, bind.
  rewrite (executor_map_run _ Artist.lyrics_request (word_count_outcome net)
             (word_count_run net)).
  cbv zeta. unfold lift.
  destruct (results _) as [counts| |]; try reflexivity.
  destruct (filter_none_int counts); reflexivity.
Qed.

Lemma recordings_no_reply (args : arguments) (net : backend) (name : string) (w : world) :
  musicbrainz net (Artist.initial_request args name) = NoReply ->
  Artist._get_artist_recordings args net name w
  = (sending [Artist.initial_request args name] w, Raise RequestException).
Proof.
  intros H. unfold Artist._get_artist_recordings, bind, requests_get. now rewrite H.
Qed.

Lemma recordings_not_found (args : arguments) (net : backend) (name : string) (w : world)
    (st : Z) (data : recordings_json) :
  musicbrainz net (Artist.initial_request args name) = Reply st data ->
  js_count data = Some 0 ->
  Artist._get_artist_recordings args net name w
  = (printing [not_found_message name] (sending [Artist.initial_request args name] w),
     Exit 1).
Proof.
  intros H Hc. unfold Artist._get_artist_recordings, bind, requests_get.
  rewrite H. simpl. rewrite Hc. reflexivity.
Qed.

Lemma recordings_all_run (args : arguments) (net : backend) (name : string) (w : world)
    (st : Z) (data : recordings_json) (n : Z) :
  args_all args = true ->
  musicbrainz net (Artist.initial_request args name) = Reply st data ->
  js_count data = Some n -> n <> 0 ->
  Artist._get_artist_recordings args net name w
  = let offsets := offsets_upto (Z.quot n 100) in
    (sending (map (Artist.page_request name) offsets)
       (printing (found_lines n) (sending [Artist.initial_request args name] w)),
     match results (map (page_outcome net name) offsets) with
     | Ok pages =>
         match titles (concat (filter_none_list pages)) with
         | Ok ts => Ok (list_to_set ts)
         | Exit code => Exit code
         | Raise e => Raise e
         end
     | Exit code => Exit code
     | Raise e => Raise e
     end).
Proof.
  intros Hall H Hc Hn. unfold Artist._get_artist_recordings, bind, requests_get.
  rewrite H. simpl. rewrite Hc. unfold get_all_tracks. rewrite Hall.
  destruct n as [|p|p]; [congruence| |];
    unfold ret; cbn beta iota;
    rewrite (executor_map_run _ (Artist.page_request name) (page_outcome net name)
               (page_run net name));
    unfold lift, printing, found_lines, sending; simpl; rewrite <- !app_assoc; simpl;
    (destruct (results _) as [pages| |]; [|reflexivity|reflexivity]);
    destruct (titles _); reflexivity.
Qed.

Lemma recordings_all_no_count (args : arguments) (net : backend) (name : string) (w : world)
    (st : Z) (data : recordings_json) :
  args_all args = true ->
  musicbrainz net (Artist.initial_request args name) = Reply st data ->
  js_count data = None ->
  Artist._get_artist_recordings args net name w
  = (sending [Artist.initial_request args name] w, Raise TypeError).
Proof.
  intros Hall H Hc. unfold Artist._get_artist_recordings, bind, requests_get.
  rewrite H. simpl. rewrite Hc. unfold get_all_tracks. rewrite Hall. reflexivity.
Qed.

Lemma recordings_fixed_run (args : arguments) (net : backend) (name : string) (w : world)
    (st : Z) (data : recordings_json) :
  args_all args = false ->
  musicbrainz net (Artist.initial_request args name) = Reply st data ->
  js_count data <> Some 0 ->
  Artist._get_artist_recordings args net name w
  = (sending [Artist.initial_request args name] w,
     match js_recordings data with
     | None => Raise (KeyError "recordings")
     | Some recordings =>
         match titles (filter_none_dict recordings) with
         | Ok ts => Ok (list_to_set ts)
         | Exit code => Exit code
         | Raise e => Raise e
         end
     end).
Proof.
  intros Hall H Hc. unfold Artist._get_artist_recordings, bind, requests_get.
  rewrite H. simpl. unfold get_all_tracks. rewrite Hall.
  destruct (js_count data) as [[|p|p]|]; [congruence| | |];
    unfold ret, lift; simpl;
    (destruct (js_recordings data) as [recordings|]; [|reflexivity]);
    destruct (titles _); reflexivity.
Qed.

(** ** The statistics of a profile *)

Lemma statistics_of_ok (name : string) (tracks : gset string) (values : list Z) (p : Artist.t) :
  Artist.statistics_of name tracks values = Ok p ->
  Artist.artist_name p = name /\ Artist.tracks p = tracks /\ Artist.values p = values
  /\ rounded_average values = Ok (Artist.average p)
  /\ builtin_max values = Ok (Artist.max p)
  /\ builtin_min values = Ok (Artist.min p)
  /\ statistics_variance values = Ok (Artist.variance p)
  /\ statistics_stdev values = Ok (Artist.standard_deviation p).
Proof.
  unfold Artist.statistics_of.
  destruct (rounded_average values); try discriminate.
  destruct (builtin_max values); try discriminate.
  destruct (builtin_min values); try discriminate.
  destruct (statistics_variance values) eqn:Hv; try discriminate.
  destruct (statistics_stdev values); try discriminate.
  intros H. inversion H. simpl. repeat split; reflexivity.
Qed.

Lemma statistics_of_two (name : string) (tracks : gset string) (values : list Z) :
  (2 <= length values)%nat -> exists p, Artist.statistics_of name tracks values = Ok p.
Proof.
  intros Hlen. destruct (statistics_variance_sample values Hlen) as (v & Hv & _).
  unfold Artist.statistics_of, statistics_stdev. rewrite Hv.
  destruct values as [|x l]; [simpl in Hlen; lia|]. simpl. eauto.
Qed.

Lemma statistics_of_one (name : string) (tracks : gset string) (v : Z) :
  Artist.statistics_of name tracks [v] = Raise StatisticsError.
Proof. reflexivity. Qed.

Lemma Q2R_nonneg (q : Q) : (0 <= q)%Q -> (0 <= Q2R q)%R.
Proof.
  intros H. apply Qle_Rle in H. unfold Q2R at 1 in H. simpl in H. lra.
Qed.

(** C6: the variance attached to a profile is the sample variance of its
    word counts, with denominator [n - 1], and the standard deviation is the
    square root of that variance; two samples or more always give a profile.
    On a single sample [v] the variance, the standard deviation and with
    them the construction raise [StatisticsError], after the average, the
    maximum and the minimum have been computed as [v]. *)
Theorem variance_and_single_sample (name : string) (tracks : gset string) :
  (forall values : list Z,
      (2 <= length values)%nat ->
      exists p, Artist.statistics_of name tracks values = Ok p
        /\ (Artist.variance p == Num.sample_variance values)%Q
        /\ Artist.standard_deviation p = sqrt (Q2R (Artist.variance p))
        /\ (Artist.standard_deviation p * Artist.standard_deviation p
            = Q2R (Artist.variance p))%R
        /\ (0 <= Artist.standard_deviation p)%R)
  /\ (forall v : Z,
         statistics_variance [v] = Raise StatisticsError
         /\ statistics_stdev [v] = Raise StatisticsError
         /\ Artist.statistics_of name tracks [v] = Raise StatisticsError
         /\ (exists avg, rounded_average [v] = Ok avg /\ (avg == inject_Z v)%Q)
         /\ builtin_max [v] = Ok v
         /\ builtin_min [v] = Ok v).
Proof.
  split.
  - intros values Hlen.
    destruct (statistics_of_two name tracks values Hlen) as [p Hp]. exists p.
    split; [exact Hp|].
    destruct (statistics_of_ok _ _ _ _ Hp) as (_ & _ & _ & _ & _ & _ & Hvar & Hsd).
    destruct (statistics_variance_sample values Hlen) as (v & Hv & Heq & Hpos).
    rewrite Hv in Hvar. inversion Hvar as [Hvv].
    unfold statistics_stdev in Hsd. rewrite Hv in Hsd. inversion Hsd as [Hss].
    rewrite <- Hvv.
    split; [exact Heq|]. split; [reflexivity|]. split.
    + apply sqrt_sqrt. now apply Q2R_nonneg.
    + apply sqrt_pos.
  - intros v. repeat split.
    eexists. split; [reflexivity|].
    rewrite (round2_comp _ (inject_Z v)); [apply round2_integer|].
    change (inject_Z (0 + v) / inject_Z 1 == inject_Z v)%Q.
    rewrite Z.add_0_l. field.
Qed.

Lemma variance_and_single_sample_witness :
  (2 <= length [3; 5])%nat
  /\ exists p, Artist.statistics_of "Queen" ∅ [3; 5] = Ok p
       /\ (Artist.variance p == Num.sample_variance [3%Z; 5%Z])%Q
       /\ Artist.standard_deviation p = sqrt (Q2R (Artist.variance p))
       /\ (Artist.standard_deviation p * Artist.standard_deviation p
           = Q2R (Artist.variance p))%R
       /\ (0 <= Artist.standard_deviation p)%R.
Proof.
  split; [simpl; lia|].
  apply (proj1 (variance_and_single_sample "Queen" ∅) [3; 5]). simpl. lia.
Defined.

Example sample_variance_3_5 : (Num.sample_variance [3%Z; 5%Z] == 2)%Q.
Proof. reflexivity. Qed.

(** C7: on a non-empty sequence of word counts the average, which is the
    sum divided by the count and rounded to two decimals, lies between the
    minimum and the maximum. This also holds of every profile. *)
Theorem average_between_extrema (values : list Z) :
  values <> [] ->
  (exists avg mn mx,
      rounded_average values = Ok avg /\ builtin_min values = Ok mn
      /\ builtin_max values = Ok mx
      /\ avg = Num.round2 (inject_Z (Num.sum values) / inject_Z (Num.len values))
      /\ (inject_Z mn <= avg <= inject_Z mx)%Q)
  /\ (forall name tracks p,
         Artist.statistics_of name tracks values = Ok p ->
         (inject_Z (Artist.min p) <= Artist.average p <= inject_Z (Artist.max p))%Q).
Proof.
  intros Hne. destruct values as [|x l]; [congruence|].
  destruct (rounded_average_bounds x l) as (avg & Havg & Hdef & Hb).
  split.
  - exists avg, (Num.minimum x l), (Num.maximum x l). repeat split; try assumption; apply Hb.
  - intros name tracks p Hp.
    destruct (statistics_of_ok _ _ _ _ Hp) as (_ & _ & _ & Ha & Hmx & Hmn & _).
    rewrite Havg in Ha. simpl in Hmx, Hmn.
    inversion Ha as [Ha']. inversion Hmx as [Hmx']. inversion Hmn as [Hmn'].
    rewrite <- Ha'. exact Hb.
Qed.

Lemma average_between_extrema_witness :
  [4; 7; 8] <> [] /\
  exists avg mn mx,
    rounded_average [4; 7; 8] = Ok avg /\ builtin_min [4; 7; 8] = Ok mn
    /\ builtin_max [4; 7; 8] = Ok mx
    /\ avg = Num.round2 (inject_Z (Num.sum [4; 7; 8]) / inject_Z (Num.len [4; 7; 8]))
    /\ (inject_Z mn <= avg <= inject_Z mx)%Q.
Proof.
  assert (H : [4; 7; 8] <> []) by discriminate.
  split; [exact H|]. exact (proj1 (average_between_extrema [4; 7; 8] H)).
Defined.

Example average_4_7_8 : rounded_average [4; 7; 8] = Ok (633 # 100).
Proof. reflexivity. Qed.

Example average_of_a_tie : rounded_average [0; 0; 0; 0; 0; 0; 0; 1] = Ok (12 # 100).
Proof. reflexivity. Qed.

(** ** The comparison of two profiles *)

Lemma Qabs_difference_swap (x y : Q) : Qabs (x - y) = Qabs (y - x).
Proof.
  destruct x as [xn xd], y as [yn yd]. unfold Qminus, Qplus, Qopp, Qabs. simpl.
  f_equal; [lia | apply Pos.mul_comm].
Qed.

(** C9: the numbers of the comparison are the absolute values of the
    differences of the five statistics, in the order average, maximum,
    minimum, variance and standard deviation; none is negative, and
    swapping the two profiles leaves them unchanged. *)
Theorem difference_report_absolute (a b : Artist.t) :
  numbers (Artist.difference_report a b)
  = [Rat (Qabs (Artist.average b - Artist.average a));
     Int (Z.abs (Artist.max b - Artist.max a));
     Int (Z.abs (Artist.min b - Artist.min a));
     Rat (Qabs (Artist.variance b - Artist.variance a));
     Real (Rabs (Artist.standard_deviation b - Artist.standard_deviation a))]
  /\ Forall nonnegative (numbers (Artist.difference_report a b))
  /\ numbers (Artist.difference_report b a) = numbers (Artist.difference_report a b)
  /\ snd (Artist.print_difference a b start) = Ok tt
  /\ stdout (fst (Artist.print_difference a b start)) = [Artist.difference_report a b].
Proof.
  assert (Hn : forall x y : Artist.t,
             numbers (Artist.difference_report x y)
             = [Rat (Qabs (Artist.average y - Artist.average x));
                Int (Z.abs (Artist.max y - Artist.max x));
                Int (Z.abs (Artist.min y - Artist.min x));
                Rat (Qabs (Artist.variance y - Artist.variance x));
                Real (Rabs (Artist.standard_deviation y - Artist.standard_deviation x))])
    by reflexivity.
  split; [apply Hn|]. split; [|split; [|split; reflexivity]].
  - rewrite Hn.
    constructor; [apply Qabs_nonneg|]. constructor; [apply Z.abs_nonneg|].
    constructor; [apply Z.abs_nonneg|]. constructor; [apply Qabs_nonneg|].
    constructor; [apply Rabs_pos | constructor].
  - rewrite !Hn.
    rewrite (Qabs_difference_swap (Artist.average a) (Artist.average b)).
    rewrite (Qabs_difference_swap (Artist.variance a) (Artist.variance b)).
    rewrite (Rabs_minus_sym (Artist.standard_deviation a) (Artist.standard_deviation b)).
    assert (Hz : forall x y : Z, Z.abs (x - y) = Z.abs (y - x)) by lia.
    rewrite (Hz (Artist.max a) (Artist.max b)), (Hz (Artist.min a) (Artist.min b)).
    reflexivity.
Qed.

(** ** The page size of the initial query *)

Lemma limit_fixed (args : arguments) :
  args_all args = false -> limit args = PInt (Z.min (args_limit args) 100).
Proof.
  intros H. unfold limit. rewrite H.
  destruct (Z.leb_spec (args_limit args) 100); simpl; f_equal; lia.
Qed.

Lemma limit_all (args : arguments) : args_all args = true -> limit args = PStr "all".
Proof. intros H. unfold limit. now rewrite H. Qed.

(** Whatever happens next, the initial query is the first request of the
    listing. *)
Lemma initial_request_first (args : arguments) (net : backend) (name : string) (w : world) :
  exists rest,
    sent (fst (Artist._get_artist_recordings args net name w))
    = (sent w ++ Artist.initial_request args name :: rest)%list.
Proof.
  destruct (musicbrainz net (Artist.initial_request args name)) as [st data|] eqn:H.
  - destruct (js_count data) as [n|] eqn:Hc.
    + destruct (Z.eq_dec n 0) as [->|Hn].
      * rewrite (recordings_not_found _ _ _ _ _ _ H Hc). now exists [].
      * destruct (args_all args) eqn:Hall.
        -- rewrite (recordings_all_run _ _ _ _ _ _ _ Hall H Hc Hn). simpl.
           rewrite <- app_assoc. eauto.
        -- rewrite (recordings_fixed_run _ _ _ _ _ _ Hall H); [|congruence]. now exists [].
    + destruct (args_all args) eqn:Hall.
      * rewrite (recordings_all_no_count _ _ _ _ _ _ Hall H Hc). now exists [].
      * rewrite (recordings_fixed_run _ _ _ _ _ _ Hall H); [|congruence]. now exists [].
  - rewrite (recordings_no_reply _ _ _ _ H). now exists [].
Qed.

(** C4: what the initial query carries as its page size. For a fixed
    count [n] it is the integer [min n 100]. For "all" it is the text
    [all]: the program hands the value it prints in "Collecting all tracks"
    to the service, where the comment beside the parameter announces 100. *)
Theorem initial_query_limit (artist : string) (compare : option string) (n : Z)
    (net : backend) (name : string) :
  (let args := {| args_artist := artist; args_compare := compare;
                  args_limit := n; args_all := false |} in
   (exists rest,
       sent (fst (Artist._get_artist_recordings args net name start))
       = Artist.initial_request args name :: rest)
   /\ lookup_param "limit" (r_params (Artist.initial_request args name))
      = Some (PInt (Z.min n 100)))
  /\
  (let args := {| args_artist := artist; args_compare := compare;
                  args_limit := n; args_all := true |} in
   (exists rest,
       sent (fst (Artist._get_artist_recordings args net name start))
       = Artist.initial_request args name :: rest)
   /\ lookup_param "limit" (r_params (Artist.initial_request args name))
      = Some (PStr "all")
   /\ lookup_param "limit" (r_params (Artist.initial_request args name))
      <> Some (PInt 100)).
Proof.
  split; cbv zeta.
  - split; [apply (initial_request_first _ net name start)|].
    simpl. now rewrite limit_fixed.
  - split; [apply (initial_request_first _ net name start)|].
    simpl. split; [reflexivity | discriminate].
Qed.

Example initial_query_of_all :
  Artist.initial_request (Mock.everything "Queen") "Queen"
  = {| r_url := "https://musicbrainz.org/ws/2/recording";
       r_headers := [("Application", "name:anonymous"); ("Accept", "application/json")];
       r_params := [("query", PStr "artist:Queen"); ("limit", PStr "all")];
       r_timeout := None |}.
Proof. reflexivity. Qed.

(** ** Looking up the lyrics of one track *)

Lemma sent_length_of_tracks (net : backend) (name : string) (tracks : gset string) (w : world) :
  sent (fst (Artist._get_length_of_tracks net name tracks w))
  = (sent w
     ++ map (fun t => Artist.lyrics_request ("https://api.lyrics.ovh/v1/" ++ name ++ "/" ++ t))
            (elements tracks))%list.
Proof.
  rewrite length_of_tracks_run. cbv zeta.
  assert (Hm : map Artist.lyrics_request (map (Artist.lyrics_url name) (elements tracks))
               = map (fun t => Artist.lyrics_request
                                 ("https://api.lyrics.ovh/v1/" ++ name ++ "/" ++ t))
                     (elements tracks)) by apply map_map.
  rewrite Hm.
  destruct (results _) as [counts| |]; try reflexivity.
  destruct (filter_none_int counts); reflexivity.
Qed.

Lemma init_run (args : arguments) (net : backend) (name : string) (w w1 : world)
    (tracks : gset string) :
  Artist._get_artist_recordings args net (Py.title name) w = (w1, Ok tracks) ->
  Artist.__init__ args net name w
  = match Artist._get_length_of_tracks net (Py.title name) tracks w1 with
    | (w2, Ok values) => (w2, Artist.statistics_of (Py.title name) tracks values)
    | (w2, Exit code) => (w2, Exit code)
    | (w2, Raise e) => (w2, Raise e)
    end.
Proof.
  intros H. unfold Artist.__init__, bind. rewrite H.
  destruct (Artist._get_length_of_tracks _ _ _ _) as [w2 [values| |]]; reflexivity.
Qed.

Lemma init_listing_fails (args : arguments) (net : backend) (name : string) (w w1 : world) :
  (forall code, Artist._get_artist_recordings args net (Py.title name) w = (w1, Exit code) ->
                Artist.__init__ args net name w = (w1, Exit code))
  /\ (forall e, Artist._get_artist_recordings args net (Py.title name) w = (w1, Raise e) ->
                Artist.__init__ args net name w = (w1, Raise e)).
Proof.
  split; intros x H; unfold Artist.__init__, bind; now rewrite H.
Qed.

(** C3, as the program has it: the lookup is sent once, with a timeout of
    5; any status other than 200 gives an absent count and no error; a
    request that gets no answer in time is not retried either, but it
    raises, and the exception leaves the batch that contains it. *)
Theorem lookup_absent_or_raised (net : backend) (url : string) (w : world) :
  r_timeout (Artist.lyrics_request url) = Some 5
  /\ (forall st body,
         lyrics_ovh net (Artist.lyrics_request url) = Reply st body -> st <> 200 ->
         Artist._get_word_count_from_track net url w
         = (sending [Artist.lyrics_request url] w, Ok None))
  /\ (lyrics_ovh net (Artist.lyrics_request url) = NoReply ->
      Artist._get_word_count_from_track net url w
      = (sending [Artist.lyrics_request url] w, Raise RequestException))
  /\ (forall (name : string) (tracks : gset string) (t : string),
         t ∈ tracks -> url = Artist.lyrics_url name t ->
         lyrics_ovh net (Artist.lyrics_request url) = NoReply ->
         exists e, snd (Artist._get_length_of_tracks net name tracks w) = Raise e).
Proof.
  split; [reflexivity|]. split; [|split].
  - intros st body H Hst. rewrite word_count_run. unfold word_count_outcome. rewrite H.
    destruct (Z.eqb_spec st 200); [contradiction | reflexivity].
  - intros H. rewrite word_count_run. unfold word_count_outcome. now rewrite H.
  - intros name tracks t Ht -> H. rewrite length_of_tracks_run. cbv zeta.
    destruct (results_raise
                (map (word_count_outcome net) (map (Artist.lyrics_url name) (elements tracks)))
                RequestException) as [e He].
    + apply in_map_iff. exists (Artist.lyrics_url name t). split.
      * unfold word_count_outcome. now rewrite H.
      * apply in_map. apply list_elem_of_In. now apply elem_of_elements.
    + intros code Hin. apply in_map_iff in Hin. destruct Hin as (u & Hu & _).
      now apply word_count_never_exits in Hu.
    + exists e. now rewrite He.
Qed.

Lemma lookup_absent_or_raised_witness :
  Artist._get_word_count_from_track (Mock.queen (Mock.lyrics [])) "u" start
  = (sending [Artist.lyrics_request "u"] start, Ok None)
  /\ Artist._get_word_count_from_track (Mock.queen Mock.silent) "u" start
     = (sending [Artist.lyrics_request "u"] start, Raise RequestException).
Proof.
  split.
  - apply (proj1 (proj2 (lookup_absent_or_raised (Mock.queen (Mock.lyrics [])) "u" start))
             404 {| js_lyrics := None |}); [reflexivity | discriminate].
  - apply (proj1 (proj2 (proj2 (lookup_absent_or_raised (Mock.queen Mock.silent) "u" start)))).
    reflexivity.
Defined.

(** C3 as stated fails: a lookup that gets no answer within the timeout is
    an error of the lookup and of the whole construction, not an absent
    count. *)
Lemma lookup_timeout_propagates :
  snd (Artist._get_word_count_from_track (Mock.queen Mock.silent)
         (Artist.lyrics_url "Queen" "Bohemian Rhapsody") start)
  = Raise RequestException
  /\ snd (Artist._get_word_count_from_track (Mock.queen Mock.silent)
            (Artist.lyrics_url "Queen" "Bohemian Rhapsody") start)
     <> Ok None
  /\ snd (Artist.__init__ (Mock.fixed "queen" 1) (Mock.queen Mock.silent) "queen" start)
     = Raise RequestException.
Proof.
  split; [reflexivity|]. split; [discriminate|]. vm_compute. reflexivity.
Qed.

(** ** The word count of a text *)

Lemma word_count_of_text (mb : request -> reply recordings_json) (text url : string)
    (w : world) :
  snd (Artist._get_word_count_from_track
         {| musicbrainz := mb; lyrics_ovh := Mock.same_lyrics text |} url w)
  = Ok (Some (1 + Z.of_nat (Py.occurrences Py.space text)
              + Z.of_nat (Py.occurrences Py.newline text))).
Proof.
  rewrite word_count_run. unfold word_count_outcome. simpl.
  now rewrite word_count_formula.
Qed.

(** C5, at the inputs where the program leaves it: on a 200 reply the
    count is one more than the number of spaces and newlines of the text,
    so it is at least 1 whatever the text is. A text without any word is
    counted as 1 and kept as a sample, and two words parted by an empty line
    are counted as 3. *)
Theorem word_count_of_empty_lyrics (mb : request -> reply recordings_json) (url : string)
    (w : world) :
  (forall text : string,
      exists n,
        snd (Artist._get_word_count_from_track
               {| musicbrainz := mb; lyrics_ovh := Mock.same_lyrics text |} url w)
        = Ok (Some n)
        /\ n = 1 + Z.of_nat (Py.occurrences Py.space text)
               + Z.of_nat (Py.occurrences Py.newline text)
        /\ 1 <= n)
  /\ snd (Artist._get_word_count_from_track
            {| musicbrainz := mb; lyrics_ovh := Mock.same_lyrics "" |} url w)
     = Ok (Some 1)
  /\ Py.words "" = 0%nat
  /\ snd (Artist._get_length_of_tracks
            {| musicbrainz := mb; lyrics_ovh := Mock.same_lyrics "" |}
            "Queen" {[ "Bohemian Rhapsody" ]} w)
     = Ok [1]
  /\ snd (Artist._get_word_count_from_track
            {| musicbrainz := mb;
               lyrics_ovh := Mock.same_lyrics ("a" ++ nl ++ nl ++ "b") |} url w)
     = Ok (Some 3)
  /\ Py.words ("a" ++ nl ++ nl ++ "b") = 2%nat.
Proof.
  split; [|split; [|split; [|split; [|split]]]].
  - intros text. eexists. split; [apply word_count_of_text|]. split; [reflexivity | lia].
  - now rewrite word_count_of_text.
  - reflexivity.
  - rewrite length_of_tracks_run. rewrite elements_singleton. reflexivity.
  - now rewrite word_count_of_text.
  - reflexivity.
Qed.

(** ** The URL of a lyrics lookup *)

(** C8, as the program has it: the lookups of a batch go to the address
    made of the prefix, the artist name, a slash and the track title, both
    copied as they are; the artist name is the title-cased form of the name
    that was given. *)
Theorem lookup_url_verbatim (net : backend) (w : world) :
  (forall (name : string) (tracks : gset string),
      sent (fst (Artist._get_length_of_tracks net name tracks w))
      = (sent w
         ++ map (fun t => Artist.lyrics_request
                            ("https://api.lyrics.ovh/v1/" ++ name ++ "/" ++ t))
                (elements tracks))%list)
  /\ (forall (args : arguments) (name : string) (w1 : world) (tracks : gset string),
         Artist._get_artist_recordings args net (Py.title name) w = (w1, Ok tracks) ->
         sent (fst (Artist.__init__ args net name w))
         = (sent w1
            ++ map (fun t => Artist.lyrics_request
                               ("https://api.lyrics.ovh/v1/" ++ Py.title name ++ "/" ++ t))
                   (elements tracks))%list).
Proof.
  split.
  - intros name tracks. apply sent_length_of_tracks.
  - intros args name w1 tracks H. rewrite (init_run _ _ _ _ _ _ H).
    rewrite <- (sent_length_of_tracks net (Py.title name) tracks w1).
    destruct (Artist._get_length_of_tracks _ _ _ _) as [w2 [values| |]]; reflexivity.
Qed.

Lemma lookup_url_verbatim_witness :
  Artist._get_artist_recordings (Mock.fixed "queen" 1) (Mock.queen (Mock.lyrics []))
    (Py.title "queen") start
  = (sending [Artist.initial_request (Mock.fixed "queen" 1) "Queen"] start,
     Ok {[ "Bohemian Rhapsody" ]})
  /\ sent (fst (Artist.__init__ (Mock.fixed "queen" 1) (Mock.queen (Mock.lyrics []))
                  "queen" start))
     = (sent (sending [Artist.initial_request (Mock.fixed "queen" 1) "Queen"] start)
        ++ map (fun t => Artist.lyrics_request
                           ("https://api.lyrics.ovh/v1/" ++ Py.title "queen" ++ "/" ++ t))
               (elements ({[ "Bohemian Rhapsody" ]} : gset string)))%list.
Proof.
  assert (H : Artist._get_artist_recordings (Mock.fixed "queen" 1)
                (Mock.queen (Mock.lyrics [])) (Py.title "queen") start
              = (sending [Artist.initial_request (Mock.fixed "queen" 1) "Queen"] start,
                 Ok {[ "Bohemian Rhapsody" ]})).
  { rewrite (recordings_fixed_run (Mock.fixed "queen" 1) (Mock.queen (Mock.lyrics []))
               (Py.title "queen") start 200
               {| js_count := Some 1;
                  js_recordings := Some [Mock.track "Bohemian Rhapsody"] |});
      [|reflexivity|reflexivity|discriminate].
    reflexivity. }
  split; [exact H|].
  exact (proj2 (lookup_url_verbatim (Mock.queen (Mock.lyrics [])) start)
           (Mock.fixed "queen" 1) "queen" _ _ H).
Defined.

(** C8 as stated fails: a slash in a title reaches the address as it is,
    where path escaping would write [%2F]. *)
Lemma lookup_url_not_escaped :
  sent (fst (Artist._get_length_of_tracks (Mock.queen (Mock.lyrics [])) "Queen"
               {[ "Up/Down" ]} start))
  = [Artist.lyrics_request "https://api.lyrics.ovh/v1/Queen/Up/Down"]
  /\ Escape.escaped_lyrics_url "Queen" "Up/Down" = "https://api.lyrics.ovh/v1/Queen/Up%2FDown"
  /\ Artist.lyrics_url "Queen" "Up/Down" <> Escape.escaped_lyrics_url "Queen" "Up/Down".
Proof.
  split; [|split; [reflexivity | discriminate]].
  rewrite sent_length_of_tracks, elements_singleton. reflexivity.
Qed.

(** ** Listing all the tracks *)

Lemma offsets_upto_In (count offset : Z) :
  In offset (offsets_upto count) <-> exists i, 0 <= i < count /\ offset = 100 * i.
Proof.
  unfold offsets_upto. rewrite in_map_iff. split.
  - intros (k & <- & Hk). apply in_seq in Hk. exists (Z.of_nat k). split; [lia | reflexivity].
  - intros (i & Hi & ->). exists (Z.to_nat i). split.
    + f_equal. lia.
    + apply in_seq. lia.
Qed.

Lemma offsets_upto_length (count : Z) : length (offsets_upto count) = Z.to_nat count.
Proof. unfold offsets_upto. now rewrite length_map, length_seq. Qed.

Lemma filter_none_list_In {A} (pages : list (option (list A))) (x : A) :
  In x (concat (filter_none_list pages)) <-> exists p, In (Some p) pages /\ In x p.
Proof.
  induction pages as [|[[|y p]|] pages IH]; simpl.
  - split; [intros [] | intros (p & [] & _)].
  - rewrite IH. split.
    + intros (p & Hp & Hx). exists p. auto.
    + intros (p & [Hp|Hp] & Hx).
      * inversion Hp. subst. destruct Hx.
      * exists p. auto.
  - rewrite in_app_iff, IH. simpl. split.
    + intros [Hx|[Hx|(q & Hq & Hx)]].
      * exists (y :: p). split; [now left | now left].
      * exists (y :: p). split; [now left | now right].
      * exists q. auto.
    + intros (q & [Hq|Hq] & Hx).
      * inversion Hq. subst. destruct Hx as [Hx|Hx]; [now left | right; now left].
      * right. right. exists q. auto.
  - rewrite IH. split.
    + intros (p & Hp & Hx). exists p. auto.
    + intros (p & [Hp|Hp] & Hx); [discriminate|]. exists p. auto.
Qed.

Lemma titles_ok (rs : list recording) :
  (forall r, In r rs -> is_Some (field "title" r)) ->
  exists ts, titles rs = Ok ts
    /\ forall t, In t ts <-> exists r, In r rs /\ field "title" r = Some t.
Proof.
  induction rs as [|r rs IH]; intros H.
  - exists []. split; [reflexivity|]. intros t. split; [intros [] | intros (r & [] & _)].
  - destruct (H r (or_introl eq_refl)) as [t0 Ht0].
    destruct IH as (ts & Hts & Hin); [intros r' Hr'; apply H; now right|].
    exists (t0 :: ts). simpl. rewrite Ht0, Hts. split; [reflexivity|].
    intros t. simpl. rewrite Hin. split.
    + intros [<-|(r' & Hr' & Ht)]; [exists r; auto | exists r'; auto].
    + intros (r' & [<-|Hr'] & Ht); [left; congruence | right; exists r'; auto].
Qed.

Lemma titles_never_exit (rs : list recording) (code : Z) : titles rs <> Exit code.
Proof.
  induction rs as [|r rs IH]; simpl; [discriminate|].
  destruct (field "title" r); [|discriminate].
  destruct (titles rs); [discriminate | exact IH | discriminate].
Qed.

Lemma results_never_exit {B} (os : list (outcome B)) (code : Z) :
  (forall c, ~ In (Exit c) os) -> results os <> Exit code.
Proof.
  induction os as [|o os IH]; intros H; simpl; [discriminate|].
  destruct o as [b|c|e]; [|exfalso; apply (H c); now left | discriminate].
  destruct (results os); [discriminate| |discriminate].
  apply IH. intros c' Hc'. apply (H c'). now right.
Qed.

Lemma page_outcome_never_exit (net : backend) (name : string) (offsets : list Z) (c : Z) :
  ~ In (Exit c) (map (page_outcome net name) offsets).
Proof.
  intros H. apply in_map_iff in H. destruct H as (off & H & _).
  unfold page_outcome in H. destruct (musicbrainz net _); discriminate.
Qed.

Lemma pages_all_answered (net : backend) (name : string) (offsets : list Z) :
  (forall off, In off offsets ->
               exists st body, musicbrainz net (Artist.page_request name off) = Reply st body) ->
  results (map (page_outcome net name) offsets) = Ok (map (page_of net name) offsets).
Proof.
  intros H. rewrite <- results_all_ok. f_equal. rewrite map_map.
  apply map_ext_in. intros off Hoff. destruct (H off Hoff) as (st & body & Hr).
  unfold page_outcome, page_of. now rewrite Hr.
Qed.

(** The listing of all the tracks when every paginated request is answered
    and every recording of a returned page has a title. *)
Lemma all_tracks_answered (args : arguments) (net : backend) (name : string) (w : world)
    (st : Z) (data : recordings_json) (n : Z) :
  args_all args = true ->
  musicbrainz net (Artist.initial_request args name) = Reply st data ->
  js_count data = Some n ->
  0 < n ->
  (forall i, 0 <= i < n / 100 ->
     exists st' body,
       musicbrainz net (Artist.page_request name (100 * i)) = Reply st' body
       /\ forall p r, js_recordings body = Some p -> In r p -> is_Some (field "title" r)) ->
  exists (w' : world) (found : gset string),
    Artist._get_artist_recordings args net name w = (w', Ok found)
    /\ sent w'
       = (sent w ++ Artist.initial_request args name
            :: map (fun i => Artist.page_request name (100 * Z.of_nat i))
                   (seq 0 (Z.to_nat (n / 100))))%list
    /\ length (map (fun i => Artist.page_request name (100 * Z.of_nat i))
                   (seq 0 (Z.to_nat (n / 100))))
       = Z.to_nat (n / 100)
    /\ (forall offset,
           lookup_param "limit" (r_params (Artist.page_request name offset)) = Some (PInt 100)
           /\ lookup_param "offset" (r_params (Artist.page_request name offset))
              = Some (PInt offset))
    /\ (forall t : string,
           t ∈ found <->
           exists i p r,
             0 <= i < n / 100 /\ page_of net name (100 * i) = Some p
             /\ In r p /\ field "title" r = Some t).
Proof.
  intros Hall Hreply Hcount Hn Hpages.
  assert (Hq : Z.quot n 100 = n / 100) by (apply Z.quot_div_nonneg; lia).
  rewrite (recordings_all_run args net name w st data n Hall Hreply Hcount) by lia.
  cbv zeta. rewrite Hq.
  rewrite pages_all_answered.
  2:{ intros off Hoff. apply offsets_upto_In in Hoff. destruct Hoff as (i & Hi & ->).
      destruct (Hpages i Hi) as (st' & body & Hr & _). eauto. }
  destruct (titles_ok (concat (filter_none_list
                                 (map (page_of net name) (offsets_upto (n / 100))))))
    as (ts & Hts & Hin).
  { intros r Hr. apply filter_none_list_In in Hr. destruct Hr as (p & Hp & Hr).
    apply in_map_iff in Hp. destruct Hp as (off & Hp & Hoff).
    apply offsets_upto_In in Hoff. destruct Hoff as (i & Hi & ->).
    destruct (Hpages i Hi) as (st' & body & Hrep & Htitle).
    unfold page_of in Hp. rewrite Hrep in Hp. eapply Htitle; eassumption. }
  rewrite Hts. eexists. exists (list_to_set ts). split; [reflexivity|].
  split; [|split; [|split]].
  - simpl. rewrite <- app_assoc. unfold offsets_upto.
    rewrite (map_map (fun i => 100 * Z.of_nat i) (Artist.page_request name)). reflexivity.
  - now rewrite length_map, length_seq.
  - intros offset. split; reflexivity.
  - intros t. rewrite elem_of_list_to_set, list_elem_of_In, Hin. split.
    + intros (r & Hr & Ht). apply filter_none_list_In in Hr. destruct Hr as (p & Hp & Hr).
      apply in_map_iff in Hp. destruct Hp as (off & Hp & Hoff).
      apply offsets_upto_In in Hoff. destruct Hoff as (i & Hi & ->).
      exists i, p, r. auto.
    + intros (i & p & r & Hi & Hp & Hr & Ht). exists r. split; [|exact Ht].
      apply filter_none_list_In. exists p. split; [|exact Hr].
      apply in_map_iff. exists (100 * i). split; [exact Hp|].
      apply offsets_upto_In. eauto.
Qed.

(** A batch of page requests of which one gets no answer hands the
    exception of that request to its consumer. *)
Lemma results_page_unanswered (net : backend) (name : string) (offsets : list Z) (off : Z) :
  In off offsets ->
  musicbrainz net (Artist.page_request name off) = NoReply ->
  results (map (page_outcome net name) offsets) = Raise RequestException.
Proof.
  intros Hin Hoff. induction offsets as [|o offsets IH]; [destruct Hin|].
  simpl. unfold page_outcome at 1.
  destruct (musicbrainz net (Artist.page_request name o)) as [st body|] eqn:Ho;
    [|reflexivity].
  destruct Hin as [->|Hin]; [congruence|]. now rewrite (IH Hin).
Qed.

(** C1, as the program has it. With quantity "all" and a reported total
    [n > 0]: when every paginated request is answered and every recording
    of a returned page has a title, the listing sends, after the initial
    query, exactly [n / 100] paginated requests, the [i]-th at offset
    [100 * i] with page size 100, each once, and the result is the set of
    the titles found on the pages that came back, a page that comes back
    without recordings or empty adding nothing. A paginated request that
    gets no answer is not skipped: the listing raises the exception of
    [requests.get] and returns no set. *)
Theorem all_tracks_pagination (args : arguments) (net : backend) (name : string) (w : world)
    (st : Z) (data : recordings_json) (n : Z) :
  args_all args = true ->
  musicbrainz net (Artist.initial_request args name) = Reply st data ->
  js_count data = Some n ->
  0 < n ->
  ((forall i, 0 <= i < n / 100 ->
      exists st' body,
        musicbrainz net (Artist.page_request name (100 * i)) = Reply st' body
        /\ forall p r, js_recordings body = Some p -> In r p -> is_Some (field "title" r)) ->
   exists (w' : world) (found : gset string),
     Artist._get_artist_recordings args net name w = (w', Ok found)
     /\ sent w'
        = (sent w ++ Artist.initial_request args name
             :: map (fun i => Artist.page_request name (100 * Z.of_nat i))
                    (seq 0 (Z.to_nat (n / 100))))%list
     /\ length (map (fun i => Artist.page_request name (100 * Z.of_nat i))
                    (seq 0 (Z.to_nat (n / 100))))
        = Z.to_nat (n / 100)
     /\ (forall offset,
            lookup_param "limit" (r_params (Artist.page_request name offset))
            = Some (PInt 100)
            /\ lookup_param "offset" (r_params (Artist.page_request name offset))
               = Some (PInt offset))
     /\ (forall t : string,
            t ∈ found <->
            exists i p r,
              0 <= i < n / 100 /\ page_of net name (100 * i) = Some p
              /\ In r p /\ field "title" r = Some t))
  /\ ((exists i, 0 <= i < n / 100
                 /\ musicbrainz net (Artist.page_request name (100 * i)) = NoReply) ->
      snd (Artist._get_artist_recordings args net name w) = Raise RequestException
      /\ forall found : gset string,
           snd (Artist._get_artist_recordings args net name w) <> Ok found).
Proof.
  intros Hall Hreply Hcount Hn. split.
  - intros Hpages.
    exact (all_tracks_answered args net name w st data n Hall Hreply Hcount Hn Hpages).
  - intros (i & Hi & Hno).
    assert (Hrun : snd (Artist._get_artist_recordings args net name w)
                   = Raise RequestException).
    { rewrite (recordings_all_run args net name w st data n Hall Hreply Hcount) by lia.
      cbv zeta. simpl snd.
      rewrite (results_page_unanswered net name _ (100 * i)); [reflexivity | | exact Hno].
      apply offsets_upto_In. exists i. split; [|reflexivity].
      rewrite Z.quot_div_nonneg by lia. exact Hi. }
    split; [exact Hrun|]. intros found. rewrite Hrun. discriminate.
Qed.

Lemma all_tracks_pagination_witness :
  (exists (w' : world) (found : gset string),
      Artist._get_artist_recordings (Mock.everything "Queen") Mock.queen_pages "Queen" start
      = (w', Ok found)
      /\ sent w'
         = [Artist.initial_request (Mock.everything "Queen") "Queen";
            Artist.page_request "Queen" 0; Artist.page_request "Queen" 100]
      /\ "Bicycle Race" ∈ found)
  /\ snd (Artist._get_artist_recordings (Mock.everything "Queen") Mock.queen_timeout
            "Queen" start)
     = Raise RequestException.
Proof.
  split.
  - destruct (proj1 (all_tracks_pagination (Mock.everything "Queen") Mock.queen_pages
                       "Queen" start 200
                       {| js_count := Some 250; js_recordings := Some [Mock.track "Intro"] |}
                       250 eq_refl eq_refl eq_refl ltac:(lia)))
      as (w' & found & Hrun & Hsent & _ & _ & Hfound).
    + intros i Hi. change (250 / 100) with 2 in Hi.
      assert (Hcases : i = 0 \/ i = 1) by lia.
      destruct Hcases as [-> | ->].
      * eexists. eexists. split; [reflexivity|].
        intros p r Hp Hr. inversion Hp. subst p.
        destruct Hr as [<-|[<-|[<-|[]]]]; eexists; reflexivity.
      * eexists. eexists. split; [reflexivity|].
        intros p r Hp. discriminate.
    + exists w', found. split; [exact Hrun|]. split; [exact Hsent|].
      apply Hfound.
      exists 0, [Mock.track "Bohemian Rhapsody"; Mock.track "Bohemian Rhapsody";
                 Mock.track "Bicycle Race"], (Mock.track "Bicycle Race").
      split; [change (250 / 100) with 2; lia|].
      split; [reflexivity|]. split; [right; right; now left | reflexivity].
  - apply (proj2 (all_tracks_pagination (Mock.everything "Queen") Mock.queen_timeout
                    "Queen" start 200
                    {| js_count := Some 250; js_recordings := Some [Mock.track "Intro"] |}
                    250 eq_refl eq_refl eq_refl ltac:(lia))).
    exists 1. split; [change (250 / 100) with 2; lia | reflexivity].
Defined.

(** C1 as stated fails: 250 matches, the page at offset 0 comes back with
    titles and the request for the page at offset 100 gets no answer. The
    listing does not skip that page and merge the rest: it raises and
    returns no set of titles. *)
Lemma unanswered_page_is_not_skipped :
  args_all (Mock.everything "Queen") = true
  /\ musicbrainz Mock.queen_timeout
       (Artist.initial_request (Mock.everything "Queen") "Queen")
     = Reply 200 {| js_count := Some 250; js_recordings := Some [Mock.track "Intro"] |}
  /\ page_of Mock.queen_timeout "Queen" 0
     = Some [Mock.track "Bohemian Rhapsody"; Mock.track "Bohemian Rhapsody";
             Mock.track "Bicycle Race"]
  /\ musicbrainz Mock.queen_timeout (Artist.page_request "Queen" 100) = NoReply
  /\ snd (Artist._get_artist_recordings (Mock.everything "Queen") Mock.queen_timeout
            "Queen" start)
     = Raise RequestException
  /\ forall found : gset string,
       snd (Artist._get_artist_recordings (Mock.everything "Queen") Mock.queen_timeout
              "Queen" start)
       <> Ok found.
Proof.
  assert (Hrun : snd (Artist._get_artist_recordings (Mock.everything "Queen")
                        Mock.queen_timeout "Queen" start)
                 = Raise RequestException).
  { rewrite (recordings_all_run (Mock.everything "Queen") Mock.queen_timeout "Queen" start
               200 {| js_count := Some 250; js_recordings := Some [Mock.track "Intro"] |}
               250);
      [reflexivity | reflexivity | reflexivity | reflexivity | discriminate]. }
  split; [reflexivity|]. split; [reflexivity|]. split; [reflexivity|].
  split; [reflexivity|]. split; [exact Hrun|].
  intros found. rewrite Hrun. discriminate.
Qed.

Example all_tracks_of_queen :
  snd (Artist._get_artist_recordings (Mock.everything "Queen") Mock.queen_pages "Queen" start)
  = Ok (list_to_set ["Bohemian Rhapsody"; "Bohemian Rhapsody"; "Bicycle Race"]).
Proof.
  rewrite (recordings_all_run (Mock.everything "Queen") Mock.queen_pages "Queen" start 200
             {| js_count := Some 250; js_recordings := Some [Mock.track "Intro"] |} 250);
    [reflexivity | reflexivity | reflexivity | reflexivity | discriminate].
Qed.




(** The title that only the initial reply lists is not in the result. *)
Example intro_is_dropped :
  "Intro" ∉ (list_to_set ["Bohemian Rhapsody"; "Bohemian Rhapsody"; "Bicycle Race"]
             : gset string).
Proof.
  rewrite elem_of_list_to_set, list_elem_of_In. simpl.
  intros [H|[H|[H|[]]]]; discriminate.
Qed.

(** Below 100 matches no page is requested and nothing is found. *)
Example all_tracks_below_100 :
  Artist._get_artist_recordings (Mock.everything "Queen")
    {| musicbrainz := Mock.listing 99 [Mock.track "Intro"] [];
       lyrics_ovh := Mock.lyrics [] |} "Queen" start
  = (printing (found_lines 99)
       (sending [Artist.initial_request (Mock.everything "Queen") "Queen"] start),
     Ok ∅).
Proof.
  rewrite (recordings_all_run (Mock.everything "Queen") _ "Queen" start 200
             {| js_count := Some 99; js_recordings := Some [Mock.track "Intro"] |} 99);
    [| reflexivity | reflexivity | reflexivity | discriminate].
  reflexivity.
Qed.

(** ** Building a profile *)

Lemma listing_exit (args : arguments) (net : backend) (name : string) (w w1 : world)
    (code : Z) :
  Artist._get_artist_recordings args net name w = (w1, Exit code) ->
  code = 1
  /\ (exists st data, musicbrainz net (Artist.initial_request args name) = Reply st data
                      /\ js_count data = Some 0)
  /\ w1 = printing [not_found_message name] (sending [Artist.initial_request args name] w).
Proof.
  destruct (musicbrainz net (Artist.initial_request args name)) as [st data|] eqn:H.
  - assert (Hfixed : args_all args = false -> js_count data <> Some 0 ->
                     Artist._get_artist_recordings args net name w <> (w1, Exit code)).
    { intros Hall Hc. rewrite (recordings_fixed_run _ _ _ _ _ _ Hall H Hc).
      destruct (js_recordings data) as [rs|]; [|discriminate].
      pose proof (titles_never_exit (filter_none_dict rs)) as Ht.
      destruct (titles _) as [ts|c|e]; try discriminate.
      now specialize (Ht c). }
    destruct (js_count data) as [n|] eqn:Hc.
    + destruct (Z.eq_dec n 0) as [->|Hn].
      * rewrite (recordings_not_found _ _ _ _ _ _ H Hc). intros Hrun. inversion Hrun.
        split; [reflexivity|]. split; [eauto | reflexivity].
      * destruct (args_all args) eqn:Hall.
        -- rewrite (recordings_all_run _ _ _ _ _ _ _ Hall H Hc Hn). cbv zeta.
           pose proof (fun c => results_never_exit _ c
                         (page_outcome_never_exit net name (offsets_upto (Z.quot n 100))))
             as Hr.
           destruct (results _) as [pages|c|e]; try discriminate.
           ++ pose proof (titles_never_exit (concat (filter_none_list pages))) as Ht.
              destruct (titles _) as [ts|c|e]; try discriminate. now specialize (Ht c).
           ++ now specialize (Hr c).
        -- intros Hrun. exfalso. apply (Hfixed eq_refl); [congruence | exact Hrun].
    + destruct (args_all args) eqn:Hall.
      * rewrite (recordings_all_no_count _ _ _ _ _ _ Hall H Hc). discriminate.
      * intros Hrun. exfalso. apply (Hfixed eq_refl); [congruence | exact Hrun].
  - rewrite (recordings_no_reply _ _ _ _ H). discriminate.
Qed.

Lemma filter_none_int_nil (counts : list (option Z)) :
  filter_none_int counts = [] -> forall c, In c counts -> c = None \/ c = Some 0.
Proof.
  induction counts as [|[n|] counts IH]; simpl; intros H c Hc.
  - destruct Hc.
  - destruct (Z.eqb_spec n 0) as [->|Hn]; [|discriminate].
    destruct Hc as [<-|Hc]; [now right | now apply IH].
  - destruct Hc as [<-|Hc]; [now left | now apply IH].
Qed.

Lemma filter_none_int_absent {A} (l : list A) :
  filter_none_int (map (fun _ => None) l) = [].
Proof. induction l as [|x l IH]; simpl; [reflexivity | exact IH]. Qed.

Lemma length_exit (net : backend) (name : string) (tracks : gset string) (w w2 : world)
    (code : Z) :
  Artist._get_length_of_tracks net name tracks w = (w2, Exit code) ->
  code = 1
  /\ (forall t, t ∈ tracks -> word_count_outcome net (Artist.lyrics_url name t) = Ok None)
  /\ stdout w2 = (stdout w ++ [no_lyrics_message name])%list.
Proof.
  rewrite length_of_tracks_run. cbv zeta.
  assert (Hn : forall c, ~ In (Exit c) (map (word_count_outcome net)
                                          (map (Artist.lyrics_url name) (elements tracks)))).
  { intros c Hin. apply in_map_iff in Hin. destruct Hin as (u & Hu & _).
    now apply word_count_never_exits in Hu. }
  pose proof (fun c => results_never_exit _ c Hn) as Hr.
  destruct (results _) as [counts|c|e] eqn:Hres; try discriminate.
  - destruct (filter_none_int counts) eqn:Hf; [|discriminate].
    intros Hrun. inversion Hrun. split; [reflexivity|]. split; [|reflexivity].
    intros t Ht. apply results_ok_inv in Hres.
    assert (Hin : In (word_count_outcome net (Artist.lyrics_url name t)) (map Ok counts)).
    { rewrite <- Hres. apply in_map, in_map. apply list_elem_of_In.
      now apply elem_of_elements. }
    apply in_map_iff in Hin. destruct Hin as (c & Hc & Hin).
    destruct (filter_none_int_nil counts Hf c Hin) as [->| ->]; [now symmetry|].
    symmetry in Hc. apply word_count_present in Hc. lia.
  - now specialize (Hr c).
Qed.

Lemma length_no_lyrics (net : backend) (name : string) (tracks : gset string) (w : world) :
  (forall t, t ∈ tracks -> word_count_outcome net (Artist.lyrics_url name t) = Ok None) ->
  Artist._get_length_of_tracks net name tracks w
  = (printing [no_lyrics_message name]
       (sending (map Artist.lyrics_request (map (Artist.lyrics_url name) (elements tracks)))
          w),
     Exit 1).
Proof.
  intros H. rewrite length_of_tracks_run. cbv zeta.
  assert (Hm : map (word_count_outcome net) (map (Artist.lyrics_url name) (elements tracks))
               = map Ok (map (fun _ => None) (elements tracks))).
  { rewrite !map_map. apply map_ext_in. intros t Ht. apply H.
    apply elem_of_elements. now apply list_elem_of_In. }
  rewrite Hm, results_all_ok, filter_none_int_absent. reflexivity.
Qed.

Lemma length_counts (net : backend) (name : string) (tracks : gset string) (w : world)
    (counts : list (option Z)) :
  map (fun t => snd (Artist._get_word_count_from_track net (Artist.lyrics_url name t) start))
      (elements tracks)
  = map Ok counts ->
  snd (Artist._get_length_of_tracks net name tracks w)
  = match filter_none_int counts with
    | [] => Exit 1
    | v :: vs => Ok (v :: vs)
    end.
Proof.
  intros H. rewrite length_of_tracks_run. cbv zeta.
  assert (Hm : map (word_count_outcome net) (map (Artist.lyrics_url name) (elements tracks))
               = map Ok counts).
  { rewrite <- H, map_map. apply map_ext. intros t. now rewrite word_count_run. }
  rewrite Hm, results_all_ok. destruct (filter_none_int counts); reflexivity.
Qed.

Lemma statistics_of_never_exit (name : string) (tracks : gset string) (values : list Z)
    (code : Z) :
  Artist.statistics_of name tracks values <> Exit code.
Proof.
  unfold Artist.statistics_of, statistics_stdev, statistics_variance.
  destruct values as [|v values]; simpl; [discriminate|].
  destruct (Num.len (v :: values) <? 2); discriminate.
Qed.

Lemma messages_differ (name : string) : not_found_message name <> no_lyrics_message name.
Proof. discriminate. Qed.

(** When every lookup hands back a count or its absence, the counts that
    are present decide how the construction ends. *)
Lemma init_counts (args : arguments) (net : backend) (name : string) (w : world)
    (tracks : gset string) (counts : list (option Z)) :
  snd (Artist._get_artist_recordings args net (Py.title name) w) = Ok tracks ->
  map (fun t => snd (Artist._get_word_count_from_track net
                       (Artist.lyrics_url (Py.title name) t) start))
      (elements tracks)
  = map Ok counts ->
  match filter_none_int counts with
  | [] => snd (Artist.__init__ args net name w) = Exit 1
  | [v] => snd (Artist.__init__ args net name w) = Raise StatisticsError
  | values => exists p, snd (Artist.__init__ args net name w) = Ok p
                        /\ Artist.values p = values
  end.
Proof.
  intros Ht Hcounts.
  destruct (Artist._get_artist_recordings args net (Py.title name) w) as [w1 ol] eqn:Hl.
  simpl in Ht. subst ol. rewrite (init_run _ _ _ _ _ _ Hl).
  pose proof (length_counts net (Py.title name) tracks w1 counts Hcounts) as Hg.
  destruct (Artist._get_length_of_tracks net (Py.title name) tracks w1) as [w2 og].
  simpl in Hg. subst og.
  destruct (filter_none_int counts) as [|v [|v' vs]]; simpl snd.
  - reflexivity.
  - apply statistics_of_one.
  - destruct (statistics_of_two (Py.title name) tracks (v :: v' :: vs)) as [p Hp];
      [simpl; lia|].
    exists p. split; [exact Hp|].
    now destruct (statistics_of_ok _ _ _ _ Hp) as (_ & _ & Hv & _).
Qed.

(** C2, as the program has it. The construction of a profile calls
    [sys.exit(1)] exactly when the service reports zero matches or when
    the listing succeeded and no track has a word count; it exits with no
    other code; the message printed last tells the two failures apart. When
    every lookup hands back a count or its absence, the counts that are
    present decide the rest: none exits as said, exactly one raises
    [StatisticsError] and builds no profile, two or more build the profile
    over these counts. *)
Theorem profile_outcomes (args : arguments) (net : backend) (name : string) (w : world) :
  let name' := Py.title name in
  let run := Artist.__init__ args net name w in
  let listing := snd (Artist._get_artist_recordings args net name' w) in
  let absent := fun t : string =>
    snd (Artist._get_word_count_from_track net (Artist.lyrics_url name' t) start) = Ok None in
  let no_match :=
    exists st data, musicbrainz net (Artist.initial_request args name') = Reply st data
                    /\ js_count data = Some 0 in
  (snd run = Exit 1 <->
   no_match \/ exists tracks, listing = Ok tracks /\ forall t, t ∈ tracks -> absent t)
  /\ (forall code, snd run = Exit code -> code = 1)
  /\ (no_match ->
      stdout (fst run) = (stdout w ++ [not_found_message name'])%list)
  /\ (forall tracks, listing = Ok tracks -> (forall t, t ∈ tracks -> absent t) ->
      exists before, stdout (fst run) = (before ++ [no_lyrics_message name'])%list)
  /\ not_found_message name' <> no_lyrics_message name'
  /\ (forall tracks counts,
         listing = Ok tracks ->
         map (fun t => snd (Artist._get_word_count_from_track net
                              (Artist.lyrics_url name' t) start))
             (elements tracks)
         = map Ok counts ->
         match filter_none_int counts with
         | [] => snd run = Exit 1
         | [v] => snd run = Raise StatisticsError
         | values => exists p, snd run = Ok p /\ Artist.values p = values
         end).
Proof.
  cbv zeta.
  destruct (Artist._get_artist_recordings args net (Py.title name) w) as [w1 ol] eqn:Hl.
  assert (Habsent : forall t,
             snd (Artist._get_word_count_from_track net
                    (Artist.lyrics_url (Py.title name) t) start) = Ok None
             <-> word_count_outcome net (Artist.lyrics_url (Py.title name) t) = Ok None).
  { intros t. now rewrite word_count_run. }
  assert (Hnomatch : forall st data,
             musicbrainz net (Artist.initial_request args (Py.title name)) = Reply st data ->
             js_count data = Some 0 ->
             Artist.__init__ args net name w
             = (printing [not_found_message (Py.title name)]
                  (sending [Artist.initial_request args (Py.title name)] w), Exit 1)).
  { intros st data H Hc.
    apply (proj1 (init_listing_fails args net name w _)).
    apply (recordings_not_found _ _ _ _ _ _ H Hc). }
  assert (Hnolyrics : forall tracks,
             ol = Ok tracks ->
             (forall t, t ∈ tracks ->
                        snd (Artist._get_word_count_from_track net
                               (Artist.lyrics_url (Py.title name) t) start) = Ok None) ->
             Artist.__init__ args net name w
             = (printing [no_lyrics_message (Py.title name)]
                  (sending (map Artist.lyrics_request
                              (map (Artist.lyrics_url (Py.title name)) (elements tracks)))
                     w1), Exit 1)).
  { intros tracks -> Hall. rewrite (init_run _ _ _ _ _ _ Hl).
    rewrite length_no_lyrics; [reflexivity|].
    intros t Ht. apply Habsent. now apply Hall. }
  simpl snd. split; [|split; [|split; [|split; [|split]]]].
  - split.
    + intros Hrun. destruct ol as [tracks|code|e].
      * right. exists tracks. split; [reflexivity|]. intros t Ht. apply Habsent.
        rewrite (init_run _ _ _ _ _ _ Hl) in Hrun.
        destruct (Artist._get_length_of_tracks net (Py.title name) tracks w1)
          as [w2 [values|code|e]] eqn:Hg; simpl in Hrun.
        -- now apply statistics_of_never_exit in Hrun.
        -- destruct (length_exit _ _ _ _ _ _ Hg) as (_ & Hnone & _). now apply Hnone.
        -- discriminate.
      * left. destruct (listing_exit _ _ _ _ _ _ Hl) as (_ & Hm & _). exact Hm.
      * rewrite (proj2 (init_listing_fails args net name w w1) e Hl) in Hrun. discriminate.
    + intros [(st & data & H & Hc) | (tracks & Ht & Hall)].
      * now rewrite (Hnomatch st data H Hc).
      * now rewrite (Hnolyrics tracks Ht Hall).
  - intros code Hrun. destruct ol as [tracks|c|e].
    + rewrite (init_run _ _ _ _ _ _ Hl) in Hrun.
      destruct (Artist._get_length_of_tracks net (Py.title name) tracks w1)
        as [w2 [values|c|e]] eqn:Hg; simpl in Hrun.
      * now apply statistics_of_never_exit in Hrun.
      * destruct (length_exit _ _ _ _ _ _ Hg) as (Hone & _). congruence.
      * discriminate.
    + destruct (listing_exit _ _ _ _ _ _ Hl) as (Hone & _).
      rewrite (proj1 (init_listing_fails args net name w w1) c Hl) in Hrun.
      simpl in Hrun. congruence.
    + rewrite (proj2 (init_listing_fails args net name w w1) e Hl) in Hrun. discriminate.
  - intros (st & data & H & Hc). now rewrite (Hnomatch st data H Hc).
  - intros tracks Ht Hall. rewrite (Hnolyrics tracks Ht Hall). simpl. eauto.
  - apply messages_differ.
  - intros tracks counts Ht Hcounts.
    apply (init_counts args net name w tracks counts); [|exact Hcounts].
    rewrite Hl. exact Ht.
Qed.

Lemma profile_outcomes_witness :
  exists p,
    snd (Artist.__init__ (Mock.fixed "queen" 2) Mock.queen_two "queen" start) = Ok p
    /\ Artist.values p = [4; 2].
Proof.
  pose proof (profile_outcomes (Mock.fixed "queen" 2) Mock.queen_two "queen" start)
    as (_ & _ & _ & _ & _ & Hbuilt).
  apply (Hbuilt {[ "Bohemian Rhapsody"; "Bicycle Race" ]} [Some 4; Some 2]).
  - rewrite (recordings_fixed_run (Mock.fixed "queen" 2) Mock.queen_two (Py.title "queen")
               start 200
               {| js_count := Some 2;
                  js_recordings := Some [Mock.track "Bohemian Rhapsody";
                                         Mock.track "Bicycle Race"] |});
      [|reflexivity|reflexivity|discriminate].
    reflexivity.
  - reflexivity.
Defined.

(** C2 as stated fails: one track with lyrics gives neither of the two
    exits nor a profile. The count of matches is 1, the only word count is
    present, and the construction raises [StatisticsError], which ends the
    process with status 1. *)
Lemma single_sample_builds_no_profile :
  snd (Artist.__init__ (Mock.fixed "queen" 1)
         (Mock.queen (Mock.same_lyrics "one two three four")) "queen" start)
  = Raise StatisticsError
  /\ exit_status (snd (main (Mock.fixed "queen" 1)
                         (Mock.queen (Mock.same_lyrics "one two three four")) start)) = 1
  /\ musicbrainz (Mock.queen (Mock.same_lyrics "one two three four"))
       (Artist.initial_request (Mock.fixed "queen" 1) "Queen")
     = Reply 200 {| js_count := Some 1;
                    js_recordings := Some [Mock.track "Bohemian Rhapsody"] |}
  /\ snd (Artist._get_artist_recordings (Mock.fixed "queen" 1)
            (Mock.queen (Mock.same_lyrics "one two three four")) "Queen" start)
     = Ok {[ "Bohemian Rhapsody" ]}
  /\ snd (Artist._get_word_count_from_track
            (Mock.queen (Mock.same_lyrics "one two three four"))
            (Artist.lyrics_url "Queen" "Bohemian Rhapsody") start)
     = Ok (Some 4).
Proof.
  assert (Hany : forall w,
             snd (Artist.__init__ (Mock.fixed "queen" 1)
                    (Mock.queen (Mock.same_lyrics "one two three four")) "queen" w)
             = Raise StatisticsError).
  { intros w.
    apply (init_counts (Mock.fixed "queen" 1)
             (Mock.queen (Mock.same_lyrics "one two three four")) "queen" w
             {[ "Bohemian Rhapsody" ]} [Some 4]); [|reflexivity].
    rewrite (recordings_fixed_run (Mock.fixed "queen" 1)
               (Mock.queen (Mock.same_lyrics "one two three four")) (Py.title "queen")
               w 200
               {| js_count := Some 1;
                  js_recordings := Some [Mock.track "Bohemian Rhapsody"] |});
      [|reflexivity|reflexivity|discriminate].
    reflexivity. }
  split; [apply Hany|]. split; [|split; [reflexivity|split; reflexivity]].
  unfold main, print_banner, bind, print.
  change (args_artist (Mock.fixed "queen" 1)) with "queen".
  match goal with
  | |- context [Artist.__init__ ?a ?n ?s ?w0] =>
      pose proof (Hany w0) as Hw; destruct (Artist.__init__ a n s w0) as [w' o]
  end.
  simpl in Hw. subst o. reflexivity.
Qed.

(** * Further properties of the program *)

(** ** Listing a fixed number of tracks *)

Lemma titles_length (rs : list recording) (ts : list string) :
  titles rs = Ok ts -> length ts = length rs.
Proof.
  revert ts. induction rs as [|r rs IH]; intros ts H; simpl in H.
  - inversion H. reflexivity.
  - destruct (field "title" r); [|discriminate].
    destruct (titles rs) as [ts'| |]; try discriminate.
    inversion H. simpl. now rewrite (IH ts' eq_refl).
Qed.

Lemma titles_missing (rs : list recording) :
  (exists r, In r rs /\ field "title" r = None) -> titles rs = Raise (KeyError "title").
Proof.
  induction rs as [|r rs IH]; intros (r0 & Hin & Hr0); [destruct Hin|].
  simpl. destruct (field "title" r) as [t|] eqn:Hr; [|reflexivity].
  destruct Hin as [->|Hin]; [congruence|].
  rewrite IH; [reflexivity | eauto].
Qed.

Lemma filter_none_dict_In (rs : list recording) (r : recording) :
  In r (filter_none_dict rs) <-> In r rs /\ r <> [].
Proof.
  unfold filter_none_dict. rewrite filter_In. split.
  - intros [Hin Hr]. split; [exact Hin|]. destruct r; [discriminate | congruence].
  - intros [Hin Hr]. split; [exact Hin|]. destruct r; [congruence | reflexivity].
Qed.

Lemma size_list_to_set_le (l : list string) :
  (size (list_to_set l : gset string) <= length l)%nat.
Proof.
  change (size (list_to_set l : gset string))
    with (length (elements (list_to_set l : gset string))).
  apply NoDup_incl_length; [apply NoDup_ListNoDup, NoDup_elements|].
  intros t Ht. apply list_elem_of_In, elem_of_elements, elem_of_list_to_set in Ht.
  now apply list_elem_of_In.
Qed.

(** X1: for a fixed count the listing is one request and no more. When the
    reply lists recordings, and each one that is not an empty object has a
    title, the result is the set of these titles: empty objects are
    skipped, repeated titles collapse, and the set is no larger than the
    list of recordings. The reported total only matters for being zero. *)
Theorem fixed_listing_titles (args : arguments) (net : backend) (name : string) (w : world)
    (st : Z) (data : recordings_json) (rs : list recording) :
  args_all args = false ->
  musicbrainz net (Artist.initial_request args name) = Reply st data ->
  js_count data <> Some 0 ->
  js_recordings data = Some rs ->
  (forall r, In r rs -> r <> [] -> is_Some (field "title" r)) ->
  exists found : gset string,
    Artist._get_artist_recordings args net name w
    = (sending [Artist.initial_request args name] w, Ok found)
    /\ (forall t : string, t ∈ found <-> exists r, In r rs /\ field "title" r = Some t)
    /\ (size found <= length rs)%nat.
Proof.
  intros Hall H Hc Hrs Htitles.
  rewrite (recordings_fixed_run _ _ _ _ _ _ Hall H Hc), Hrs.
  destruct (titles_ok (filter_none_dict rs)) as (ts & Hts & Hin).
  { intros r Hr. apply filter_none_dict_In in Hr. now apply Htitles. }
  rewrite Hts. exists (list_to_set ts). split; [reflexivity|]. split.
  - intros t. rewrite elem_of_list_to_set, list_elem_of_In, Hin. split.
    + intros (r & Hr & Ht). apply filter_none_dict_In in Hr. exists r. tauto.
    + intros (r & Hr & Ht). exists r. split; [|exact Ht].
      apply filter_none_dict_In. split; [exact Hr|]. intros ->. discriminate.
  - eapply Nat.le_trans; [apply size_list_to_set_le|].
    rewrite (titles_length _ _ Hts). unfold filter_none_dict. apply filter_length_le.
Qed.

Lemma fixed_listing_titles_witness :
  exists found : gset string,
    Artist._get_artist_recordings (Mock.fixed "queen" 3)
      (Mock.answering {| js_count := Some 40;
                         js_recordings := Some [Mock.track "Bicycle Race"; [];
                                                Mock.track "Bicycle Race"] |})
      "Queen" start
    = (sending [Artist.initial_request (Mock.fixed "queen" 3) "Queen"] start, Ok found)
    /\ (forall t : string,
           t ∈ found <->
           exists r, In r [Mock.track "Bicycle Race"; []; Mock.track "Bicycle Race"]
                     /\ field "title" r = Some t)
    /\ (size found <= 3)%nat.
Proof.
  apply (fixed_listing_titles (Mock.fixed "queen" 3) _ "Queen" start 200
           {| js_count := Some 40;
              js_recordings := Some [Mock.track "Bicycle Race"; [];
                                     Mock.track "Bicycle Race"] |}).
  - reflexivity.
  - reflexivity.
  - discriminate.
  - reflexivity.
  - intros r [<-|[<-|[<-|[]]]] Hr; try congruence; eexists; reflexivity.
Defined.

(** X2: what the fixed-count listing does with a reply that lacks a field.
    Without [recordings] it raises [KeyError] for that key; with a recording
    that is not empty and has no [title] it raises [KeyError] for [title]. In
    both cases the one request has been sent and nothing is printed. *)
Theorem fixed_listing_missing_field (args : arguments) (net : backend) (name : string)
    (w : world) (st : Z) (data : recordings_json) :
  args_all args = false ->
  musicbrainz net (Artist.initial_request args name) = Reply st data ->
  js_count data <> Some 0 ->
  (js_recordings data = None ->
   Artist._get_artist_recordings args net name w
   = (sending [Artist.initial_request args name] w, Raise (KeyError "recordings")))
  /\ (forall rs,
         js_recordings data = Some rs ->
         (exists r, In r rs /\ r <> [] /\ field "title" r = None) ->
         Artist._get_artist_recordings args net name w
         = (sending [Artist.initial_request args name] w, Raise (KeyError "title"))).
Proof.
  intros Hall H Hc. rewrite (recordings_fixed_run _ _ _ _ _ _ Hall H Hc). split.
  - intros ->. reflexivity.
  - intros rs -> (r & Hin & Hr & Ht). rewrite titles_missing; [reflexivity|].
    exists r. split; [|exact Ht]. now apply filter_none_dict_In.
Qed.

Lemma fixed_listing_missing_field_witness :
  Artist._get_artist_recordings (Mock.fixed "queen" 3)
    (Mock.answering {| js_count := None; js_recordings := None |}) "Queen" start
  = (sending [Artist.initial_request (Mock.fixed "queen" 3) "Queen"] start,
     Raise (KeyError "recordings"))
  /\ Artist._get_artist_recordings (Mock.fixed "queen" 3)
       (Mock.answering {| js_count := Some 1; js_recordings := Some [[("id", "7")]] |})
       "Queen" start
     = (sending [Artist.initial_request (Mock.fixed "queen" 3) "Queen"] start,
        Raise (KeyError "title")).
Proof.
  split.
  - apply (proj1 (fixed_listing_missing_field (Mock.fixed "queen" 3)
                    (Mock.answering {| js_count := None; js_recordings := None |})
                    "Queen" start 200
                    {| js_count := None; js_recordings := None |}
                    eq_refl eq_refl ltac:(discriminate))).
    reflexivity.
  - apply (proj2 (fixed_listing_missing_field (Mock.fixed "queen" 3)
                    (Mock.answering {| js_count := Some 1;
                                       js_recordings := Some [[("id", "7")]] |})
                    "Queen" start 200
                    {| js_count := Some 1; js_recordings := Some [[("id", "7")]] |}
                    eq_refl eq_refl ltac:(discriminate)) [[("id", "7")]] eq_refl).
    exists [("id", "7")]. split; [now left|]. split; [discriminate | reflexivity].
Defined.

(** ** Listing all the tracks: what is asked for and what is not *)

Lemma quot_below_100 (n : Z) : n < 100 -> Z.to_nat (Z.quot n 100) = 0%nat.
Proof.
  intros Hn. destruct (Z_lt_le_dec n 0) as [Hneg|Hpos].
  - assert (H : Z.quot n 100 <= 0); [|lia].
    replace n with (- - n) by lia. rewrite Z.quot_opp_l by lia.
    assert (0 <= Z.quot (- n) 100) by (apply Z.quot_pos; lia). lia.
  - rewrite Z.quot_small by lia. reflexivity.
Qed.

(** X3: with quantity "all", a reported total below 100 (and not zero)
    makes the listing send no paginated request and find no title at all,
    whatever the service holds; the construction of the profile then prints
    that no lyrics were found and exits with code 1 without a single lyrics
    lookup. *)
Theorem all_below_100_finds_nothing (args : arguments) (net : backend) (name : string)
    (w : world) (st : Z) (data : recordings_json) (n : Z) :
  args_all args = true ->
  musicbrainz net (Artist.initial_request args (Py.title name)) = Reply st data ->
  js_count data = Some n ->
  n <> 0 ->
  n < 100 ->
  Artist._get_artist_recordings args net (Py.title name) w
  = (printing (found_lines n) (sending [Artist.initial_request args (Py.title name)] w),
     Ok ∅)
  /\ Artist.__init__ args net name w
     = (printing [no_lyrics_message (Py.title name)]
          (printing (found_lines n)
             (sending [Artist.initial_request args (Py.title name)] w)),
        Exit 1).
Proof.
  intros Hall H Hc Hn Hlt.
  assert (Hl : Artist._get_artist_recordings args net (Py.title name) w
               = (printing (found_lines n)
                    (sending [Artist.initial_request args (Py.title name)] w), Ok ∅)).
  { rewrite (recordings_all_run _ _ _ _ _ _ _ Hall H Hc Hn). cbv zeta.
    unfold offsets_upto. rewrite (quot_below_100 n Hlt). simpl map.
    rewrite sending_nil. reflexivity. }
  split; [exact Hl|].
  rewrite (init_run _ _ _ _ _ _ Hl), length_of_tracks_run. cbv zeta.
  rewrite elements_empty. simpl map. rewrite sending_nil. reflexivity.
Qed.

Lemma all_below_100_finds_nothing_witness :
  Artist.__init__ (Mock.everything "queen")
    {| musicbrainz := Mock.listing 99 [Mock.track "Intro"] [Some [Mock.track "Intro"]];
       lyrics_ovh := Mock.same_lyrics "one two" |} "queen" start
  = (printing [no_lyrics_message "Queen"]
       (printing (found_lines 99)
          (sending [Artist.initial_request (Mock.everything "queen") "Queen"] start)),
     Exit 1).
Proof.
  apply (proj2 (all_below_100_finds_nothing (Mock.everything "queen")
                  {| musicbrainz := Mock.listing 99 [Mock.track "Intro"]
                                      [Some [Mock.track "Intro"]];
                     lyrics_ovh := Mock.same_lyrics "one two" |} "queen" start 200
                  {| js_count := Some 99; js_recordings := Some [Mock.track "Intro"] |} 99
                  eq_refl eq_refl eq_refl ltac:(discriminate) ltac:(lia))).
Defined.

(** X4: the offsets of the paginated requests for a total [n >= 0] are
    pairwise distinct multiples of 100, and each page of 100 lies wholly
    below [n]. The positions they cover are exactly those below
    [100 * (n / 100)]: the last [n mod 100] matches are never asked for. *)
Theorem offsets_cover_full_pages (n : Z) :
  0 <= n ->
  List.NoDup (offsets_upto (Z.quot n 100))
  /\ (forall offset, In offset (offsets_upto (Z.quot n 100)) ->
                     offset mod 100 = 0 /\ 0 <= offset /\ offset + 100 <= n)
  /\ (forall k, 0 <= k < n ->
        ((exists offset, In offset (offsets_upto (Z.quot n 100)) /\ offset <= k < offset + 100)
         <-> k < 100 * (n / 100))).
Proof.
  intros Hn. rewrite Z.quot_div_nonneg by lia.
  assert (Hdiv : 100 * (n / 100) <= n) by (apply Z.mul_div_le; lia).
  split; [|split].
  - unfold offsets_upto. apply NoDup_ListNoDup.
    assert (Hinj : Inj eq eq (fun i : nat => 100 * Z.of_nat i)) by (intros i j Hij; lia).
    apply (NoDup_fmap_2 (fun i => 100 * Z.of_nat i)), NoDup_seq.
  - intros offset Hin. apply offsets_upto_In in Hin. destruct Hin as (i & Hi & ->).
    split; [|split; [lia|]].
    + rewrite Z.mul_comm. apply Z.mod_mul. lia.
    + assert (100 * (i + 1) <= 100 * (n / 100)) by lia. lia.
  - intros k Hk. split.
    + intros (offset & Hin & Hoff). apply offsets_upto_In in Hin.
      destruct Hin as (i & Hi & ->).
      assert (100 * (i + 1) <= 100 * (n / 100)) by lia. lia.
    + intros Hlt. exists (100 * (k / 100)). split.
      * apply offsets_upto_In. exists (k / 100). split; [|reflexivity].
        split; [apply Z.div_pos; lia|].
        apply Z.div_lt_upper_bound; lia.
      * pose proof (Z.mul_div_le k 100 ltac:(lia)).
        pose proof (Z.mul_succ_div_gt k 100 ltac:(lia)). lia.
Qed.

Lemma offsets_cover_full_pages_witness :
  offsets_upto (Z.quot 250 100) = [0; 100]
  /\ (forall k, 0 <= k < 250 ->
        ((exists offset, In offset (offsets_upto (Z.quot 250 100))
                         /\ offset <= k < offset + 100)
         <-> k < 100 * (250 / 100))).
Proof.
  split; [reflexivity|].
  exact (proj2 (proj2 (offsets_cover_full_pages 250 ltac:(lia)))).
Defined.

(** X5: what the listing of all the tracks does with a reply that lacks a
    field. Without [count] the division of line 137 raises [TypeError],
    after the initial query and before anything is printed. When the pages
    are answered and one of them holds a recording without [title], be it
    the empty object that the fixed-count listing skips, the listing raises
    [KeyError] once every page has been requested. *)
Theorem all_listing_missing_field (args : arguments) (net : backend) (name : string)
    (w : world) (st : Z) (data : recordings_json) :
  args_all args = true ->
  musicbrainz net (Artist.initial_request args name) = Reply st data ->
  (js_count data = None ->
   Artist._get_artist_recordings args net name w
   = (sending [Artist.initial_request args name] w, Raise TypeError))
  /\ (forall n,
         js_count data = Some n ->
         0 < n ->
         (forall i, 0 <= i < n / 100 ->
            exists st' body,
              musicbrainz net (Artist.page_request name (100 * i)) = Reply st' body) ->
         (exists i p r, 0 <= i < n / 100 /\ page_of net name (100 * i) = Some p
                        /\ In r p /\ field "title" r = None) ->
         Artist._get_artist_recordings args net name w
         = (sending (map (Artist.page_request name) (offsets_upto (n / 100)))
              (printing (found_lines n) (sending [Artist.initial_request args name] w)),
            Raise (KeyError "title"))).
Proof.
  intros Hall H. split.
  - intros Hc. apply (recordings_all_no_count _ _ _ _ _ _ Hall H Hc).
  - intros n Hc Hn Hpages (i & p & r & Hi & Hp & Hr & Ht).
    rewrite (recordings_all_run _ _ _ _ _ _ _ Hall H Hc) by lia. cbv zeta.
    rewrite Z.quot_div_nonneg by lia.
    rewrite pages_all_answered.
    2:{ intros off Hoff. apply offsets_upto_In in Hoff. destruct Hoff as (j & Hj & ->).
        now apply Hpages. }
    rewrite titles_missing; [reflexivity|].
    exists r. split; [|exact Ht]. apply filter_none_list_In. exists p. split; [|exact Hr].
    apply in_map_iff. exists (100 * i). split; [exact Hp|].
    apply offsets_upto_In. eauto.
Qed.

Lemma all_listing_missing_field_witness :
  Artist._get_artist_recordings (Mock.everything "Queen")
    {| musicbrainz := Mock.listing 120 [] [Some [Mock.track "Bicycle Race"; []]];
       lyrics_ovh := Mock.lyrics [] |} "Queen" start
  = (sending [Artist.page_request "Queen" 0]
       (printing (found_lines 120)
          (sending [Artist.initial_request (Mock.everything "Queen") "Queen"] start)),
     Raise (KeyError "title")).
Proof.
  apply (proj2 (all_listing_missing_field (Mock.everything "Queen")
                  {| musicbrainz := Mock.listing 120 [] [Some [Mock.track "Bicycle Race"; []]];
                     lyrics_ovh := Mock.lyrics [] |} "Queen" start 200
                  {| js_count := Some 120; js_recordings := Some [] |} eq_refl eq_refl)
           120 eq_refl ltac:(lia)).
  - intros i Hi. change (120 / 100) with 1 in Hi.
    assert (i = 0) as -> by lia. eexists. eexists. reflexivity.
  - exists 0, [Mock.track "Bicycle Race"; []], []. change (120 / 100) with 1.
    split; [lia|]. split; [reflexivity|]. split; [right; now left | reflexivity].
Defined.

(** ** The batch of lyrics lookups *)

Lemma filter_none_int_In (counts : list (option Z)) (v : Z) :
  In v (filter_none_int counts) -> In (Some v) counts /\ v <> 0.
Proof.
  induction counts as [|[n|] counts IH]; simpl; intros H.
  - destruct H.
  - destruct (Z.eqb_spec n 0) as [->|Hn].
    + destruct (IH H). auto.
    + destruct H as [->|H]; [auto|]. destruct (IH H). auto.
  - destruct (IH H). auto.
Qed.

Lemma filter_none_int_length (counts : list (option Z)) :
  (length (filter_none_int counts) <= length counts)%nat.
Proof.
  induction counts as [|[n|] counts IH]; simpl; [lia| |lia].
  destruct (n =? 0); simpl; lia.
Qed.

(** X6: when the batch of lookups hands back word counts, the list is not
    empty, every count is at least 1 and is the count of one of the tracks,
    there are no more counts than tracks, and nothing was printed. *)
Theorem word_counts_of_batch (net : backend) (name : string) (tracks : gset string)
    (w w' : world) (values : list Z) :
  Artist._get_length_of_tracks net name tracks w = (w', Ok values) ->
  values <> []
  /\ Forall (fun v => 1 <= v) values
  /\ (length values <= size tracks)%nat
  /\ (forall v, In v values ->
        exists t, t ∈ tracks
          /\ snd (Artist._get_word_count_from_track net (Artist.lyrics_url name t) start)
             = Ok (Some v))
  /\ stdout w' = stdout w.
Proof.
  rewrite length_of_tracks_run. cbv zeta.
  destruct (results _) as [counts| |] eqn:Hres; try discriminate.
  destruct (filter_none_int counts) as [|v0 vs] eqn:Hf; [discriminate|].
  intros Hrun. inversion Hrun. subst. apply results_ok_inv in Hres.
  assert (Hfrom : forall v, In v (v0 :: vs) ->
            exists t, t ∈ tracks
              /\ word_count_outcome net (Artist.lyrics_url name t) = Ok (Some v)).
  { intros v Hv. rewrite <- Hf in Hv. apply filter_none_int_In in Hv. destruct Hv as [Hv _].
    assert (Hin : In (Ok (Some v)) (map Ok counts)) by now apply in_map.
    rewrite <- Hres in Hin. apply in_map_iff in Hin. destruct Hin as (u & Hu & Hin).
    apply in_map_iff in Hin. destruct Hin as (t & <- & Ht).
    exists t. split; [|exact Hu]. apply elem_of_elements. now apply list_elem_of_In. }
  split; [discriminate|]. split; [|split; [|split; [|reflexivity]]].
  - apply List.Forall_forall. intros v Hv. destruct (Hfrom v Hv) as (t & _ & Ht).
    now apply word_count_present in Ht.
  - rewrite <- Hf. eapply Nat.le_trans; [apply filter_none_int_length|].
    assert (Hlen : length (map Ok counts) = length counts) by apply length_map.
    rewrite <- Hlen, <- Hres, !length_map. reflexivity.
  - intros v Hv. destruct (Hfrom v Hv) as (t & Ht & Hc). exists t. split; [exact Ht|].
    now rewrite word_count_run.
Qed.

Lemma word_counts_of_batch_witness :
  exists values,
    snd (Artist._get_length_of_tracks Mock.queen_two "Queen"
           {[ "Bohemian Rhapsody"; "Bicycle Race" ]} start) = Ok values
    /\ Forall (fun v => 1 <= v) values.
Proof.
  destruct (Artist._get_length_of_tracks Mock.queen_two "Queen"
              {[ "Bohemian Rhapsody"; "Bicycle Race" ]} start) as [w' o] eqn:Hrun.
  assert (Ho : o = Ok [4; 2]).
  { revert Hrun. rewrite length_of_tracks_run. vm_compute. intros Hrun.
    inversion Hrun. reflexivity. }
  subst o. exists [4; 2]. split; [reflexivity|].
  exact (proj1 (proj2 (word_counts_of_batch _ _ _ _ _ _ Hrun))).
Defined.

Lemma append_cancel (s t t' : string) : (s ++ t = s ++ t')%string -> t = t'.
Proof.
  induction s as [|c s IH]; simpl; intros H; [exact H|].
  inversion H. now apply IH.
Qed.

Lemma lyrics_url_cancel (name t t' : string) :
  Artist.lyrics_url name t = Artist.lyrics_url name t' -> t = t'.
Proof.
  unfold Artist.lyrics_url. intros H.
  apply append_cancel in H. apply append_cancel in H. now apply append_cancel in H.
Qed.

(** X7: a batch sends one lookup per title of the set and no title is
    looked up twice: the requests are pairwise distinct, as many as the
    titles, each to the address of one of them and with a timeout of 5,
    whether the batch ends with counts, an exit or an exception. *)
Theorem lookups_once_per_title (net : backend) (name : string) (tracks : gset string)
    (w : world) :
  exists rs,
    sent (fst (Artist._get_length_of_tracks net name tracks w)) = (sent w ++ rs)%list
    /\ List.NoDup rs
    /\ length rs = size tracks
    /\ (forall r, In r rs ->
          r_timeout r = Some 5
          /\ exists t, t ∈ tracks /\ r_url r = Artist.lyrics_url name t)
    /\ (forall t, t ∈ tracks ->
          In (Artist.lyrics_request (Artist.lyrics_url name t)) rs).
Proof.
  exists (map (fun t => Artist.lyrics_request (Artist.lyrics_url name t)) (elements tracks)).
  split; [apply sent_length_of_tracks|]. split; [|split; [|split]].
  - apply NoDup_ListNoDup.
    assert (Hinj : Inj eq eq (fun t => Artist.lyrics_request (Artist.lyrics_url name t))).
    { intros t t' Heq. apply (lyrics_url_cancel name).
      exact (f_equal r_url Heq). }
    apply (NoDup_fmap_2 _), NoDup_elements.
  - now rewrite length_map.
  - intros r Hr. apply in_map_iff in Hr. destruct Hr as (t & <- & Ht).
    split; [reflexivity|]. exists t. split; [|reflexivity].
    apply elem_of_elements. now apply list_elem_of_In.
  - intros t Ht. apply in_map_iff. exists t. split; [reflexivity|].
    apply list_elem_of_In. now apply elem_of_elements.
Qed.

(** X8: a reply with status 200 and no [lyrics] field makes the lookup
    raise [KeyError] for that key, and with it every batch that holds the
    track: the batch has sent all its requests, prints nothing and hands
    back no counts, whatever the other tracks brought. *)
Theorem lyrics_field_missing (net : backend) (url : string) (w : world)
    (body : lyrics_json) :
  lyrics_ovh net (Artist.lyrics_request url) = Reply 200 body ->
  js_lyrics body = None ->
  Artist._get_word_count_from_track net url w
  = (sending [Artist.lyrics_request url] w, Raise (KeyError "lyrics"))
  /\ (forall (name : string) (tracks : gset string) (t : string),
         t ∈ tracks -> url = Artist.lyrics_url name t ->
         exists e,
           Artist._get_length_of_tracks net name tracks w
           = (sending (map Artist.lyrics_request
                         (map (Artist.lyrics_url name) (elements tracks))) w,
              Raise e)).
Proof.
  intros H Hbody.
  assert (Ho : word_count_outcome net url = Raise (KeyError "lyrics")).
  { unfold word_count_outcome. now rewrite H, Hbody. }
  split; [now rewrite word_count_run, Ho|].
  intros name tracks t Ht ->. rewrite length_of_tracks_run. cbv zeta.
  destruct (results_raise
              (map (word_count_outcome net) (map (Artist.lyrics_url name) (elements tracks)))
              (KeyError "lyrics")) as [e He].
  - apply in_map_iff. exists (Artist.lyrics_url name t). split; [exact Ho|].
    apply in_map. apply list_elem_of_In. now apply elem_of_elements.
  - intros code Hin. apply in_map_iff in Hin. destruct Hin as (u & Hu & _).
    now apply word_count_never_exits in Hu.
  - exists e. now rewrite He.
Qed.

Lemma lyrics_field_missing_witness :
  Artist._get_word_count_from_track
    (Mock.queen (fun _ => Reply 200 {| js_lyrics := None |})) "u" start
  = (sending [Artist.lyrics_request "u"] start, Raise (KeyError "lyrics")).
Proof.
  exact (proj1 (lyrics_field_missing
                  (Mock.queen (fun _ => Reply 200 {| js_lyrics := None |})) "u" start
                  {| js_lyrics := None |} eq_refl eq_refl)).
Defined.

(** ** The statistics do not depend on the order of the samples *)

Lemma sum_permutation (l l' : list Z) : Permutation l l' -> Num.sum l = Num.sum l'.
Proof.
  induction 1 as [|x l l' _ IH|x y l|l l' l'' _ IH1 _ IH2].
  - reflexivity.
  - now rewrite !sum_cons, IH.
  - rewrite !sum_cons. lia.
  - now rewrite IH1.
Qed.

Lemma sum_of_squares_permutation (l l' : list Z) :
  Permutation l l' -> Num.sum_of_squares l = Num.sum_of_squares l'.
Proof.
  induction 1 as [|x l l' _ IH|x y l|l l' l'' _ IH1 _ IH2].
  - reflexivity.
  - now rewrite !sum_of_squares_cons, IH.
  - rewrite !sum_of_squares_cons. lia.
  - now rewrite IH1.
Qed.

Lemma len_permutation (l l' : list Z) : Permutation l l' -> Num.len l = Num.len l'.
Proof. intros H. unfold Num.len. now rewrite (Permutation_length H). Qed.

Lemma maximum_In (l : list Z) (a : Z) : In (Num.maximum a l) (a :: l).
Proof.
  unfold Num.maximum. revert a. induction l as [|x l IH]; intros a; simpl.
  - now left.
  - destruct (IH (Z.max a x)) as [H|H]; [|right; now right].
    rewrite <- H. destruct (Z.max_spec a x) as [[_ ->]|[_ ->]]; [right; now left | now left].
Qed.

Lemma minimum_In (l : list Z) (a : Z) : In (Num.minimum a l) (a :: l).
Proof.
  unfold Num.minimum. revert a. induction l as [|x l IH]; intros a; simpl.
  - now left.
  - destruct (IH (Z.min a x)) as [H|H]; [|right; now right].
    rewrite <- H. destruct (Z.min_spec a x) as [[_ ->]|[_ ->]]; [now left | right; now left].
Qed.

Lemma maximum_upper (l : list Z) (a y : Z) : In y (a :: l) -> y <= Num.maximum a l.
Proof.
  destruct (maximum_spec l a) as [Ha Hl]. intros [<-|Hy]; [exact Ha|].
  rewrite List.Forall_forall in Hl. now apply Hl.
Qed.

Lemma minimum_lower (l : list Z) (a y : Z) : In y (a :: l) -> Num.minimum a l <= y.
Proof.
  destruct (minimum_spec l a) as [Ha Hl]. intros [<-|Hy]; [exact Ha|].
  rewrite List.Forall_forall in Hl. now apply Hl.
Qed.

Lemma builtin_max_permutation (l l' : list Z) :
  Permutation l l' -> builtin_max l = builtin_max l'.
Proof.
  intros H. destruct l as [|x l], l' as [|y l']; simpl.
  - reflexivity.
  - now apply Permutation_nil in H.
  - symmetry in H. now apply Permutation_nil in H.
  - f_equal. apply Z.le_antisymm; apply maximum_upper.
    + apply (Permutation_in _ H), maximum_In.
    + apply (Permutation_in _ (Permutation_sym H)), maximum_In.
Qed.

Lemma builtin_min_permutation (l l' : list Z) :
  Permutation l l' -> builtin_min l = builtin_min l'.
Proof.
  intros H. destruct l as [|x l], l' as [|y l']; simpl.
  - reflexivity.
  - now apply Permutation_nil in H.
  - symmetry in H. now apply Permutation_nil in H.
  - f_equal. apply Z.le_antisymm; apply minimum_lower.
    + apply (Permutation_in _ (Permutation_sym H)), minimum_In.
    + apply (Permutation_in _ H), minimum_In.
Qed.

(** X9: the five statistics of lines 60 to 64 take the same value, or raise
    the same error, on any two orderings of the same word counts; the order
    in which the set of titles is walked does not show in a profile. *)
Theorem statistics_order_independent (values values' : list Z) :
  Permutation values values' ->
  rounded_average values = rounded_average values'
  /\ builtin_max values = builtin_max values'
  /\ builtin_min values = builtin_min values'
  /\ statistics_variance values = statistics_variance values'
  /\ statistics_stdev values = statistics_stdev values'.
Proof.
  intros H.
  assert (Hvar : statistics_variance values = statistics_variance values').
  { unfold statistics_variance, Num.ss.
    now rewrite (len_permutation _ _ H), (sum_permutation _ _ H),
      (sum_of_squares_permutation _ _ H). }
  split; [|split; [|split; [|split]]].
  - destruct values as [|x l], values' as [|y l'].
    + reflexivity.
    + now apply Permutation_nil in H.
    + symmetry in H. now apply Permutation_nil in H.
    + unfold rounded_average.
      now rewrite (len_permutation _ _ H), (sum_permutation _ _ H).
  - now apply builtin_max_permutation.
  - now apply builtin_min_permutation.
  - exact Hvar.
  - unfold statistics_stdev. now rewrite Hvar.
Qed.

Lemma statistics_order_independent_witness :
  rounded_average [4; 2; 9] = rounded_average [9; 4; 2]
  /\ builtin_max [4; 2; 9] = builtin_max [9; 4; 2]
  /\ builtin_min [4; 2; 9] = builtin_min [9; 4; 2]
  /\ statistics_variance [4; 2; 9] = statistics_variance [9; 4; 2]
  /\ statistics_stdev [4; 2; 9] = statistics_stdev [9; 4; 2].
Proof.
  apply statistics_order_independent.
  symmetry. apply (Permutation_cons_app [4; 2] [] 9). reflexivity.
Defined.

(** ** What holds of every profile that is built *)

Lemma init_ok_inv (args : arguments) (net : backend) (name : string) (w w' : world)
    (p : Artist.t) :
  Artist.__init__ args net name w = (w', Ok p) ->
  exists w1 tracks values,
    Artist._get_artist_recordings args net (Py.title name) w = (w1, Ok tracks)
    /\ Artist._get_length_of_tracks net (Py.title name) tracks w1 = (w', Ok values)
    /\ Artist.statistics_of (Py.title name) tracks values = Ok p.
Proof.
  unfold Artist.__init__, bind.
  destruct (Artist._get_artist_recordings args net (Py.title name) w)
    as [w1 [tracks| |]] eqn:Hl; try discriminate.
  destruct (Artist._get_length_of_tracks net (Py.title name) tracks w1)
    as [w2 [values| |]] eqn:Hg; try discriminate.
  unfold lift. intros H. inversion H as [[Hw Hp]]. subst w2. exists w1, tracks, values.
  split; [reflexivity|]. split; [exact Hg | reflexivity].
Qed.

(** X10: every profile that [__init__] builds carries the title-cased
    name, at least two word counts and no more than it has titles, each
    count at least 1; its minimum and maximum are two of these counts, with
    [1 <= min <= max], and its variance is not negative. *)
Theorem profile_invariants (args : arguments) (net : backend) (name : string)
    (w w' : world) (p : Artist.t) :
  Artist.__init__ args net name w = (w', Ok p) ->
  Artist.artist_name p = Py.title name
  /\ (2 <= length (Artist.values p) <= size (Artist.tracks p))%nat
  /\ Forall (fun v => 1 <= v) (Artist.values p)
  /\ In (Artist.min p) (Artist.values p)
  /\ In (Artist.max p) (Artist.values p)
  /\ 1 <= Artist.min p <= Artist.max p
  /\ (0 <= Artist.variance p)%Q.
Proof.
  intros Hrun. destruct (init_ok_inv _ _ _ _ _ _ Hrun) as (w1 & tracks & values & _ & Hg & Hp).
  destruct (statistics_of_ok _ _ _ _ Hp) as (Hname & Htracks & Hvalues & _ & Hmax & Hmin & Hvar & _).
  assert (Hbatch : Forall (fun v => 1 <= v) values /\ (length values <= size tracks)%nat).
  { rewrite length_of_tracks_run in Hg. cbv zeta in Hg.
    destruct (results _) as [counts| |] eqn:Hres; try discriminate.
    destruct (filter_none_int counts) as [|v0 vs] eqn:Hf; [discriminate|].
    inversion Hg. subst values. apply results_ok_inv in Hres. split.
    - apply List.Forall_forall. intros v Hv. rewrite <- Hf in Hv.
      apply filter_none_int_In in Hv. destruct Hv as [Hv _].
      assert (Hin : In (Ok (Some v)) (map Ok counts)) by now apply in_map.
      rewrite <- Hres in Hin. apply in_map_iff in Hin. destruct Hin as (u & Hu & _).
      now apply word_count_present in Hu.
    - rewrite <- Hf. eapply Nat.le_trans; [apply filter_none_int_length|].
      assert (Hlen : length (map Ok counts) = length counts) by apply length_map.
      rewrite <- Hlen, <- Hres, !length_map. reflexivity. }
  destruct Hbatch as [Hpos Hsize].
  assert (Hlen : (2 <= length values)%nat).
  { destruct (le_lt_dec 2 (length values)) as [H|H]; [exact H|].
    rewrite (statistics_variance_short values H) in Hvar. discriminate. }
  rewrite Hname, Htracks, Hvalues.
  destruct values as [|v l]; [simpl in Hlen; lia|].
  simpl in Hmax, Hmin. inversion Hmax as [Hmax']. inversion Hmin as [Hmin'].
  pose proof (minimum_In l v) as HminIn. pose proof (maximum_In l v) as HmaxIn.
  split; [reflexivity|]. split; [lia|]. split; [exact Hpos|].
  split; [exact HminIn|]. split; [exact HmaxIn|]. split.
  - split.
    + rewrite List.Forall_forall in Hpos. now apply Hpos.
    + now apply maximum_upper.
  - destruct (statistics_variance_sample (v :: l) Hlen) as (q & Hq & _ & Hq0).
    rewrite Hq in Hvar. inversion Hvar as [Hvar']. rewrite <- Hvar'. exact Hq0.
Qed.

Lemma profile_invariants_witness :
  exists w' p,
    Artist.__init__ (Mock.fixed "queen" 2) Mock.queen_two "queen" start = (w', Ok p)
    /\ Artist.artist_name p = "Queen"
    /\ 1 <= Artist.min p <= Artist.max p.
Proof.
  destruct (Artist.__init__ (Mock.fixed "queen" 2) Mock.queen_two "queen" start)
    as [w' o] eqn:Hrun.
  assert (Ho : exists p, o = Ok p).
  { destruct (init_counts (Mock.fixed "queen" 2) Mock.queen_two "queen" start
                {[ "Bohemian Rhapsody"; "Bicycle Race" ]} [Some 4; Some 2])
      as (p & Hp & _); [reflexivity | reflexivity |].
    rewrite Hrun in Hp. simpl in Hp. eauto. }
  destruct Ho as [p ->]. exists w', p. split; [reflexivity|].
  destruct (profile_invariants _ _ _ _ _ _ Hrun) as (Hname & _ & _ & _ & _ & Hmin & _).
  split; [exact Hname | exact Hmin].
Defined.

(** ** A variance of zero *)

Lemma Qsum_zero (a b : Q) : (0 <= a)%Q -> (0 <= b)%Q -> (a + b == 0)%Q -> (a == 0 /\ b == 0)%Q.
Proof.
  intros Ha Hb H. split; apply Qle_antisym; try assumption; rewrite <- H.
  - rewrite <- (Qplus_0_r a) at 1. apply Qplus_le_compat; [apply Qle_refl | exact Hb].
  - rewrite <- (Qplus_0_l b) at 1. apply Qplus_le_compat; [exact Ha | apply Qle_refl].
Qed.

Lemma Qsquare_zero (a b : Q) : ((a - b) * (a - b) == 0)%Q -> (a == b)%Q.
Proof.
  intros H. assert (Hd : (a - b == 0)%Q) by (apply Qmult_integral in H; tauto).
  assert (Ha : (a == (a - b) + b)%Q) by ring. rewrite Ha, Hd. ring.
Qed.

Lemma deviations_zero (m : Q) (l : list Z) :
  (fold_right (fun x acc => (inject_Z x - m) * (inject_Z x - m) + acc) 0 l == 0)%Q
  <-> forall x, In x l -> (inject_Z x == m)%Q.
Proof.
  induction l as [|y l IH]; cbn [fold_right].
  - split; [intros _ x [] | intros _; reflexivity].
  - pose proof (square_nonneg (inject_Z y - m)) as Hy.
    pose proof (deviations_nonneg m l) as Hl. split.
    + intros H x Hx. destruct (Qsum_zero _ _ Hy Hl H) as [Hsq Hrest].
      destruct Hx as [<-|Hx]; [now apply Qsquare_zero | now apply IH].
    + intros H.
      assert (Hy0 : (inject_Z y == m)%Q) by (apply H; now left).
      assert (Hl0 : (fold_right (fun x acc => (inject_Z x - m) * (inject_Z x - m) + acc) 0 l
                     == 0)%Q) by (apply IH; intros x Hx; apply H; now right).
      rewrite Hl0, Hy0. ring.
Qed.

Lemma sum_constant (c : Z) (l : list Z) :
  (forall x, In x l -> x = c) -> Num.sum l = Num.len l * c.
Proof.
  induction l as [|y l IH]; intros H.
  - reflexivity.
  - rewrite sum_cons, len_cons, IH, (H y) by (try (now left); intros x Hx; apply H; now right).
    lia.
Qed.

Lemma Qpos_nonzero (q : Q) : (0 < q)%Q -> ~ (q == 0)%Q.
Proof. intros H E. rewrite E in H. exact (Qlt_irrefl 0 H). Qed.

(** X11: on two samples or more the variance is zero exactly when all the
    word counts are the same number. *)
Theorem variance_zero_iff_constant (values : list Z) :
  (2 <= length values)%nat ->
  exists v, statistics_variance values = Ok v
    /\ ((v == 0)%Q <-> exists c, forall x, In x values -> x = c).
Proof.
  intros Hlen. destruct (statistics_variance_sample values Hlen) as (v & Hv & Heq & _).
  exists v. split; [exact Hv|]. rewrite Heq. unfold Num.sample_variance.
  assert (Hn : (0 < inject_Z (Num.len values - 1))%Q).
  { change 0%Q with (inject_Z 0). rewrite <- Zlt_Qlt. unfold Num.len. lia. }
  assert (Hdiv : (Num.squared_deviations values / inject_Z (Num.len values - 1) == 0)%Q
                 <-> (Num.squared_deviations values == 0)%Q).
  { split; intros H.
    - assert (Hm : (Num.squared_deviations values
                    == Num.squared_deviations values / inject_Z (Num.len values - 1)
                       * inject_Z (Num.len values - 1))%Q)
        by (field; now apply Qpos_nonzero).
      rewrite Hm, H. ring.
    - rewrite H. field. now apply Qpos_nonzero. }
  rewrite Hdiv. unfold Num.squared_deviations. rewrite deviations_zero. split.
  - intros H. destruct values as [|c l]; [simpl in Hlen; lia|].
    exists c. intros x Hx. apply inject_Z_injective.
    rewrite (H x Hx), (H c); [reflexivity | now left].
  - intros [c Hc] x Hx. unfold Num.mean. rewrite (sum_constant c values Hc), (Hc x Hx).
    rewrite inject_Z_mult. field.
    assert (Hpos : (0 < inject_Z (Num.len values))%Q).
    { change 0%Q with (inject_Z 0). rewrite <- Zlt_Qlt. unfold Num.len. lia. }
    now apply Qpos_nonzero.
Qed.

Lemma variance_zero_iff_constant_witness :
  exists v, statistics_variance [7; 7; 7] = Ok v
    /\ ((v == 0)%Q <-> exists c, forall x, In x [7; 7; 7] -> x = c).
Proof.
  apply variance_zero_iff_constant. simpl. lia.
Defined.

(** ** The canonical form of an artist name *)

Lemma letter_case (c : ascii) (b : bool) :
  Py.is_lower c || Py.is_upper c = true ->
  Py.is_lower (if b then Py.lower c else Py.upper c)
  || Py.is_upper (if b then Py.lower c else Py.upper c) = true
  /\ (if b then Py.lower (if b then Py.lower c else Py.upper c)
      else Py.upper (if b then Py.lower c else Py.upper c))
     = (if b then Py.lower c else Py.upper c).
Proof.
  destruct c as [[] [] [] [] [] [] [] []], b; intros H;
    first [discriminate H | split; reflexivity].
Qed.

Lemma title_from_idempotent (s : string) (b : bool) :
  Py.title_from b (Py.title_from b s) = Py.title_from b s.
Proof.
  revert b. induction s as [|c s IH]; intros b; simpl; [reflexivity|].
  destruct (Py.is_lower c || Py.is_upper c) eqn:Hc.
  - destruct (letter_case c b Hc) as [Hletter Hsame]. simpl.
    rewrite Hletter, Hsame, IH. reflexivity.
  - simpl. rewrite Hc, IH. reflexivity.
Qed.

Lemma title_from_length (s : string) (b : bool) :
  String.length (Py.title_from b s) = String.length s.
Proof.
  revert b. induction s as [|c s IH]; intros b; simpl; [reflexivity|].
  destruct (Py.is_lower c || Py.is_upper c); simpl; now rewrite IH.
Qed.

Lemma case_ascii (c : ascii) :
  (nat_of_ascii c < 128)%nat ->
  (nat_of_ascii (Py.upper c) < 128)%nat /\ (nat_of_ascii (Py.lower c) < 128)%nat.
Proof.
  destruct c as [[] [] [] [] [] [] [] []]; intros H; apply Nat.ltb_lt in H;
    first [vm_compute in H; discriminate H | split; apply Nat.ltb_lt; reflexivity].
Qed.

Lemma title_from_ascii (s : string) (b : bool) :
  Py.ascii_only s -> Py.ascii_only (Py.title_from b s).
Proof.
  unfold Py.ascii_only. revert b. induction s as [|c s IH]; intros b H; simpl.
  - constructor.
  - simpl in H. inversion H as [|c' l Hc Hl]. subst.
    destruct (case_ascii c Hc) as [Hu Hlo].
    destruct (Py.is_lower c || Py.is_upper c); simpl; constructor;
      try (now apply IH); try exact Hc.
    destruct b; assumption.
Qed.

(** X12: for a name made of ASCII characters, title-casing keeps the length
    and changes nothing in a name that is already title-cased, so building a
    profile from the name a profile carries goes through the same run as
    building it from the name that was typed. *)
Theorem title_case_is_stable (args : arguments) (net : backend) (name : string)
    (w : world) :
  Py.ascii_only name ->
  Py.ascii_only (Py.title name)
  /\ Py.title (Py.title name) = Py.title name
  /\ String.length (Py.title name) = String.length name
  /\ Artist.__init__ args net (Py.title name) w = Artist.__init__ args net name w.
Proof.
  intros Hascii.
  assert (H : Py.title (Py.title name) = Py.title name) by apply title_from_idempotent.
  split; [now apply title_from_ascii|]. split; [exact H|].
  split; [apply title_from_length|].
  unfold Artist.__init__. now rewrite H.
Qed.

Lemma title_case_is_stable_witness :
  Py.ascii_only "the BEATLES"
  /\ Py.title (Py.title "the BEATLES") = Py.title "the BEATLES"
  /\ String.length (Py.title "the BEATLES") = String.length "the BEATLES".
Proof.
  assert (Hascii : Py.ascii_only "the BEATLES").
  { unfold Py.ascii_only. simpl. repeat constructor; simpl; lia. }
  split; [exact Hascii|].
  destruct (title_case_is_stable (Mock.fixed "the BEATLES" 1) (Mock.queen (Mock.lyrics []))
              "the BEATLES" start Hascii) as (_ & Hidem & Hlen & _).
  split; [exact Hidem | exact Hlen].
Defined.

Example title_of_the_beatles : Py.title "the BEATLES" = "The Beatles".
Proof. reflexivity. Qed.

(** ** The banner *)

Lemma repeat_char_length (c : ascii) (n : nat) : String.length (Py.repeat_char c n) = n.
Proof. induction n as [|n IH]; simpl; [reflexivity | now rewrite IH]. Qed.

Lemma repeat_char_only (c d : ascii) (n : nat) :
  In d (list_ascii_of_string (Py.repeat_char c n)) -> d = c.
Proof.
  induction n as [|n IH]; simpl; [intros [] | intros [<-|H]]; [reflexivity | now apply IH].
Qed.

Lemma print_banner_run (title : string) (w : world) :
  print_banner title w
  = (printing [[Str (Py.repeat_char "-" (String.length title))]; [Str title];
               [Str (Py.repeat_char "-" (String.length title))]] w, Ok tt).
Proof. unfold print_banner, bind, print, printing. simpl. now rewrite <- !app_assoc. Qed.

(** X13: the banner is three lines, the title between two rules that are
    made of dashes only and are as long as the title; it never fails. *)
Theorem banner_rules_fit (title : string) (w : world) :
  exists rule,
    print_banner title w = (printing [[Str rule]; [Str title]; [Str rule]] w, Ok tt)
    /\ String.length rule = String.length title
    /\ forall c, In c (list_ascii_of_string rule) -> c = "-"%char.
Proof.
  exists (Py.repeat_char "-" (String.length title)). split; [|split].
  - apply print_banner_run.
  - apply repeat_char_length.
  - intros c. apply repeat_char_only.
Qed.

(** ** The whole run *)

Lemma main_run (args : arguments) (net : backend) (w : world) :
  main args net w
  = match Artist.__init__ args net (args_artist args) (announced args w) with
    | (w1, Ok artist) =>
        match compared args with
        | Some other =>
            match Artist.__init__ args net other w1 with
            | (w2, Ok artist_object) => Artist.print_difference artist artist_object w2
            | (w2, Exit code) => (w2, Exit code)
            | (w2, Raise e) => (w2, Raise e)
            end
        | None => Artist.print_details artist w1
        end
    | (w1, Exit code) => (w1, Exit code)
    | (w1, Raise e) => (w1, Raise e)
    end.
Proof.
  unfold main, bind. rewrite print_banner_run.
  assert (Hw : fst (print [Str "Collecting "; limit_piece (limit args);
                           Str " tracks, please wait..."]
                      (printing
                         [[Str (Py.repeat_char "-"
                                  (String.length "AireLogic Tech Test by Luckman Ali"))];
                          [Str "AireLogic Tech Test by Luckman Ali"];
                          [Str (Py.repeat_char "-"
                                  (String.length "AireLogic Tech Test by Luckman Ali"))]] w))
               = announced args w).
  { unfold print, printing, announced. simpl. now rewrite <- !app_assoc. }
  unfold print at 1. cbn [fst] in Hw. unfold print in Hw. cbn [fst] in Hw. rewrite Hw.
  destruct (Artist.__init__ args net (args_artist args) (announced args w))
    as [w1 [artist|code|e]]; try reflexivity.
  unfold compared. destruct (args_compare args) as [[|c other]|]; reflexivity.
Qed.

Lemma init_exit_code (args : arguments) (net : backend) (name : string) (w w' : world)
    (code : Z) :
  Artist.__init__ args net name w = (w', Exit code) -> code = 1.
Proof.
  unfold Artist.__init__, bind.
  destruct (Artist._get_artist_recordings args net (Py.title name) w)
    as [w1 [tracks|c|e]] eqn:Hl; try discriminate.
  - destruct (Artist._get_length_of_tracks net (Py.title name) tracks w1)
      as [w2 [values|c|e]] eqn:Hg; try discriminate.
    + unfold lift. intros H. inversion H as [[Hw Hp]].
      now apply statistics_of_never_exit in Hp.
    + intros H. inversion H. subst. now destruct (length_exit _ _ _ _ _ _ Hg).
  - intros H. inversion H. subst. now destruct (listing_exit _ _ _ _ _ _ Hl).
Qed.

(** X14: [main] ends with status 0 exactly when the profile of the artist
    is built and, if a name to compare with was given and is not empty, the
    profile of that name is built after it; the last thing printed is then
    the details of the one profile or the comparison of the two. Every other
    run ends with status 1. *)
Theorem main_status (args : arguments) (net : backend) (w : world) :
  let built :=
    exists w1 artist,
      Artist.__init__ args net (args_artist args) (announced args w) = (w1, Ok artist)
      /\ match compared args with
         | Some other =>
             exists w2 artist_object,
               Artist.__init__ args net other w1 = (w2, Ok artist_object)
               /\ main args net w = Artist.print_difference artist artist_object w2
         | None => main args net w = Artist.print_details artist w1
         end in
  (exit_status (snd (main args net w)) = 0 <-> built)
  /\ (snd (main args net w) = Ok tt <-> built)
  /\ (exit_status (snd (main args net w)) = 0 \/ exit_status (snd (main args net w)) = 1).
Proof.
  cbv zeta. rewrite main_run.
  destruct (Artist.__init__ args net (args_artist args) (announced args w))
    as [w1 [artist|code|e]] eqn:H1.
  - destruct (compared args) as [other|].
    + destruct (Artist.__init__ args net other w1) as [w2 [artist_object|code|e]] eqn:H2.
      * assert (Hb : exists w1' artist',
                   (w1, Ok artist) = (w1', Ok artist')
                   /\ exists w2' artist_object',
                        Artist.__init__ args net other w1' = (w2', Ok artist_object')
                        /\ Artist.print_difference artist artist_object w2
                           = Artist.print_difference artist' artist_object' w2').
        { exists w1, artist. split; [reflexivity|]. exists w2, artist_object. now split. }
        split; [|split]; [split; [intros _; exact Hb | reflexivity]
                         | split; [intros _; exact Hb | reflexivity] | now left].
      * pose proof (init_exit_code _ _ _ _ _ _ H2) as ->.
        split; [|split]; [split; [discriminate|] | split; [discriminate|] | now right];
          intros (w1' & artist' & Heq & w2' & ao & H2' & _); inversion Heq; subst;
          rewrite H2 in H2'; discriminate.
      * split; [|split]; [split; [discriminate|] | split; [discriminate|] | now right];
          intros (w1' & artist' & Heq & w2' & ao & H2' & _); inversion Heq; subst;
          rewrite H2 in H2'; discriminate.
    + split; [|split]; [split; [intros _ | reflexivity] | split; [intros _ | reflexivity]
                       | now left];
        exists w1, artist; now split.
  - pose proof (init_exit_code _ _ _ _ _ _ H1) as ->.
    split; [|split]; [split; [discriminate|] | split; [discriminate|] | now right];
      intros (w1' & artist' & Heq & _); discriminate.
  - split; [|split]; [split; [discriminate|] | split; [discriminate|] | now right];
      intros (w1' & artist' & Heq & _); discriminate.
Qed.

(** X15: when the profile of the first artist is not built, [main] stops
    there: it ends in the world and with the exit or the error of that
    construction, so nothing is asked about the artist to compare with and
    nothing more is printed. *)
Theorem main_stops_at_first_failure (args : arguments) (net : backend) (w w1 : world)
    (o : outcome Artist.t) :
  Artist.__init__ args net (args_artist args) (announced args w) = (w1, o) ->
  (forall artist, o <> Ok artist) ->
  fst (main args net w) = w1
  /\ exit_status (snd (main args net w)) = 1
  /\ (forall code, o = Exit code -> snd (main args net w) = Exit code)
  /\ (forall e, o = Raise e -> snd (main args net w) = Raise e).
Proof.
  intros H Ho. rewrite main_run, H. destruct o as [artist|code|e].
  - now destruct (Ho artist).
  - pose proof (init_exit_code _ _ _ _ _ _ H) as ->.
    repeat split; try reflexivity; intros x Hx; inversion Hx; reflexivity.
  - repeat split; try reflexivity; intros x Hx; inversion Hx; reflexivity.
Qed.

Lemma main_stops_at_first_failure_witness :
  fst (main {| args_artist := "queen"; args_compare := Some "abba";
               args_limit := 1; args_all := false |} (Mock.answering
               {| js_count := Some 0; js_recordings := Some [] |}) start)
  = printing [not_found_message "Queen"]
      (sending [Artist.initial_request (Mock.fixed "queen" 1) "Queen"]
         (announced (Mock.fixed "queen" 1) start)).
Proof.
  apply (main_stops_at_first_failure
           {| args_artist := "queen"; args_compare := Some "abba";
              args_limit := 1; args_all := false |}
           (Mock.answering {| js_count := Some 0; js_recordings := Some [] |}) start _
           (Exit 1)).
  - reflexivity.
  - discriminate.
Defined.

(** ** Counting the words of a text, continued *)

(** [counted] is what the lookup hands back on a reply with status 200. *)
Lemma counted_on_200 (net : backend) (url : string) (w : world) (body : lyrics_json)
    (text : string) :
  lyrics_ovh net (Artist.lyrics_request url) = Reply 200 body ->
  js_lyrics body = Some text ->
  Artist._get_word_count_from_track net url w
  = (sending [Artist.lyrics_request url] w, Ok (Some (counted text))).
Proof.
  intros H Hbody. rewrite word_count_run. unfold word_count_outcome.
  now rewrite H, Hbody.
Qed.

Lemma occurrences_append (c : ascii) (s t : string) :
  Py.occurrences c (s ++ t)
  = (Py.occurrences c s + Py.occurrences c t)%nat.
Proof.
  induction s as [|d s IH]; simpl; [reflexivity|].
  destruct (Ascii.eqb d c); simpl; now rewrite IH.
Qed.

Lemma counted_formula (text : string) :
  counted text
  = 1 + Z.of_nat (Py.occurrences Py.space text) + Z.of_nat (Py.occurrences Py.newline text).
Proof. apply word_count_formula. Qed.

(** X16: the count of two texts joined by one space or one newline is the
    sum of their counts, and the count of two texts put end to end is one
    less than that sum: every separator adds exactly one to the count,
    wherever it stands. *)
Theorem counted_of_joined_texts (a b : string) :
  counted (a ++ String Py.space b) = counted a + counted b
  /\ counted (a ++ String Py.newline b) = counted a + counted b
  /\ counted (a ++ b) = counted a + counted b - 1.
Proof.
  rewrite !counted_formula, !occurrences_append. simpl. lia.
Qed.

Lemma words_from_bound (s : string) :
  (forall c, In c (list_ascii_of_string s) -> Py.is_space c = true ->
             c = Py.space \/ c = Py.newline) ->
  (Py.words_from true s <= Py.occurrences Py.space s + Py.occurrences Py.newline s)%nat
  /\ (Py.words_from false s
      <= 1 + Py.occurrences Py.space s + Py.occurrences Py.newline s)%nat.
Proof.
  induction s as [|c s IH]; intros H; simpl; [lia|].
  assert (Hs : (Py.words_from true s
                <= Py.occurrences Py.space s + Py.occurrences Py.newline s)%nat
               /\ (Py.words_from false s
                   <= 1 + Py.occurrences Py.space s + Py.occurrences Py.newline s)%nat).
  { apply IH. intros d Hd. apply H. now right. }
  destruct Hs as [Ht Hf].
  destruct (Py.is_space c) eqn:Hc.
  - destruct (H c (or_introl eq_refl) Hc) as [-> | ->]; simpl; lia.
  - destruct (Ascii.eqb c Py.space) eqn:E1.
    { apply Ascii.eqb_eq in E1. subst c. discriminate Hc. }
    destruct (Ascii.eqb c Py.newline) eqn:E2.
    { apply Ascii.eqb_eq in E2. subst c. discriminate Hc. }
    lia.
Qed.

(** X17: for a text whose only whitespace is spaces and newlines, the count
    is never below the number of its words. *)
Theorem counted_at_least_words (text : string) :
  (forall c, In c (list_ascii_of_string text) -> Py.is_space c = true ->
             c = Py.space \/ c = Py.newline) ->
  Z.of_nat (Py.words text) <= counted text.
Proof.
  intros H. rewrite counted_formula. unfold Py.words.
  destruct (words_from_bound text H) as [_ Hf]. lia.
Qed.

Lemma counted_at_least_words_witness :
  Z.of_nat (Py.words ("one two" ++ nl ++ nl ++ "three")) <= counted ("one two" ++ nl ++ nl ++ "three").
Proof.
  apply counted_at_least_words.
  intros c Hc Hs. simpl in Hc.
  repeat (destruct Hc as [<-|Hc]; [first [discriminate Hs | now left | now right]|]).
  destruct Hc.
Defined.

(** A tab between two words, which [split(' ')] does not see, gives a count
    below the number of words. *)
Example counted_misses_a_tab :
  counted (String "a" (String (ascii_of_nat 9) "b")) = 1
  /\ Py.words (String "a" (String (ascii_of_nat 9) "b")) = 2%nat.
Proof. split; reflexivity. Qed.
